(** * Chat-with-your-data: query synthesis, self-correction and result display

    A shallow embedding of the parts of the repository that carry behaviour:

    - the backend excerpts of the architecture document
      ([answer_with_self_correction], [CacheManager.get_similar_query],
      [FabricService.execute_query], [validate_query]);
    - the chat front end ([sendMessage] and its conversation context);
    - the result table and its CSV export ([VirtualizedDataTable]);
    - the table's filter and sort controls, the chart recommendation
      ([chartAnalysis]), the message list, the monitoring history and the
      backend's context manager.

    Python and JavaScript strings are modelled as [string] (one [ascii] per
    character, ASCII text); JavaScript values as the inductive [Js.value]. *)

From Stdlib Require Import List Bool Arith Lia ZArith QArith.
From Stdlib Require Import Strings.String Strings.Ascii Numbers.DecimalString.
Import ListNotations.

Close Scope Q_scope.
Local Open Scope nat_scope.
Local Open Scope list_scope.
Local Open Scope string_scope.

(* ------------------------------------------------------------------ *)
(** ** Strings, as Python's [str] methods use them *)

Module Str.

(** [c.upper()] on one ASCII character: [a]..[z] move down by 32, every
    other character stands for itself. *)
Definition upper_char (c : ascii) : ascii :=
  let n := nat_of_ascii c in
  if ((97 <=? n) && (n <=? 122))%nat then ascii_of_nat (n - 32) else c.

(** [s.upper()] *)
Fixpoint upper (s : string) : string :=
  match s with
  | EmptyString => EmptyString
  | String c s' => String (upper_char c) (upper s')
  end.

(** [c.isspace()] on ASCII: tab, line feed, vertical tab, form feed,
    carriage return, the four separators 28..31 and the space. *)
Definition isspace (c : ascii) : bool :=
  let n := nat_of_ascii c in
  (((9 <=? n) && (n <=? 13)) || ((28 <=? n) && (n <=? 31)) || (n =? 32))%nat.

Fixpoint lstrip (s : string) : string :=
  match s with
  | EmptyString => EmptyString
  | String c s' => if isspace c then lstrip s' else s
  end.

Fixpoint rstrip (s : string) : string :=
  match s with
  | EmptyString => EmptyString
  | String c s' =>
      match rstrip s' with
      | EmptyString => if isspace c then EmptyString else String c EmptyString
      | r => String c r
      end
  end.

(** [s.strip()] *)
Definition strip (s : string) : string := rstrip (lstrip s).

(** [s.startswith(p)] *)
Fixpoint startswith (s p : string) {struct p} : bool :=
  match p, s with
  | EmptyString, _ => true
  | String _ _, EmptyString => false
  | String a p', String b s' => Ascii.eqb a b && startswith s' p'
  end.

(** [kw in s] : [kw] occurs in [s] as a contiguous substring. *)
Fixpoint contains (kw s : string) : bool :=
  match s with
  | EmptyString => startswith EmptyString kw
  | String _ s' => startswith s kw || contains kw s'
  end.

(** [sep.join(parts)] and JavaScript's [parts.join(sep)] *)
Fixpoint join (sep : string) (parts : list string) : string :=
  match parts with
  | [] => EmptyString
  | [p] => p
  | p :: rest => p ++ sep ++ join sep rest
  end.

(** The propositional readings the theorems are stated with. *)
Definition Prefix (p s : string) : Prop := exists rest, s = p ++ rest.
Definition Substring (kw s : string) : Prop :=
  exists pre post, s = pre ++ kw ++ post.

(** [s] starts with [p] when case is ignored: some prefix of [s] upper-cases
    to [p]. *)
Definition PrefixIgnoringCase (p s : string) : Prop :=
  exists head rest, s = head ++ rest /\ upper head = p.

(** [c.toLowerCase()] on one ASCII character: [A]..[Z] move up by 32. *)
Definition lower_char (c : ascii) : ascii :=
  let n := nat_of_ascii c in
  if ((65 <=? n) && (n <=? 90))%nat then ascii_of_nat (n + 32) else c.

(** [s.toLowerCase()] *)
Fixpoint lower (s : string) : string :=
  match s with
  | EmptyString => EmptyString
  | String c s' => String (lower_char c) (lower s')
  end.

(** The string is made of whitespace only. *)
Fixpoint all_space (s : string) : bool :=
  match s with
  | EmptyString => true
  | String c s' => isspace c && all_space s'
  end.

End Str.

(* ------------------------------------------------------------------ *)
(** ** Query validation (architecture document, "Data Security") *)

Module Validate.
Import Str.

Definition dangerous_keywords : list string :=
  ["DROP"; "DELETE"; "UPDATE"; "INSERT"; "TRUNCATE"].

(** [validate_query(query, query_type)].  The function has no [else]
    branch: for any other [query_type] it falls off its end and returns
    Python's [None], here [None]. *)
Definition validate_query (query query_type : string) : option bool :=
  if String.eqb query_type "sql" then
    Some (negb (existsb (fun keyword => contains keyword (upper query))
                        dangerous_keywords))
  else if String.eqb query_type "dax" then
    Some (startswith (upper (strip query)) "EVALUATE")
  else None.

End Validate.

(* ------------------------------------------------------------------ *)
(** ** JavaScript values, as the front end receives them in JSON *)

Module Js.

(** The scalar values a JSON response or a missing property can hold.
    [Num] carries the integer-valued numbers (printed in plain decimal by
    [String(...)]); [NaN] is kept apart because it is falsy. *)
Inductive value : Type :=
  | Undefined
  | Null
  | Bool (b : bool)
  | Num (z : Z)
  | NaN
  | Str (s : string).

(** ToBoolean *)
Definition truthy (v : value) : bool :=
  match v with
  | Undefined | Null | NaN => false
  | Bool b => b
  | Num z => negb (z =? 0)%Z
  | Str EmptyString => false
  | Str (String _ _) => true
  end.

(** [a || b] *)
Definition or (a b : value) : value := if truthy a then a else b.

(** [String(v)], also what a template literal does to [v] *)
Definition to_String (v : value) : string :=
  match v with
  | Undefined => "undefined"
  | Null => "null"
  | Bool true => "true"
  | Bool false => "false"
  | Num z => NilZero.string_of_int (Z.to_int z)
  | NaN => "NaN"
  | Str s => s
  end.

(** A result row: a JSON object, read by property name. *)
Definition row : Type := list (string * value).

(** [row[col]]: the property's value, [undefined] when it is absent. *)
Fixpoint get (r : row) (col : string) : value :=
  match r with
  | [] => Undefined
  | (k, v) :: r' => if String.eqb k col then v else get r' col
  end.

(** [c.isspace] for [String.prototype.trim] on ASCII text. *)
Definition is_trim_space (c : ascii) : bool :=
  let n := nat_of_ascii c in
  (((9 <=? n) && (n <=? 13)) || (n =? 32))%nat.

(** [!s.trim()]: the string is empty once trimmed. *)
Fixpoint blank (s : string) : bool :=
  match s with
  | EmptyString => true
  | String c s' => is_trim_space c && blank s'
  end.

End Js.

(* ------------------------------------------------------------------ *)
(** ** The self-correcting orchestrator (architecture document,
       "Self-Correction Algorithm") *)

Module Orchestrator.

(** Modelled from the spec: the error kinds of the specification's error
    taxonomy.  The source hands [result["error"]] to [_fix_query] without
    looking into it, so the kind is carried along only to state claims. *)
Inductive ErrorKind : Type := syntax | permission | timeout | connection.

Record ExecutionError : Type :=
  { kind : ErrorKind; message : string }.

(** The dictionary [_execute_query] returns: [result["success"]],
    [result["error"]] and the rows. *)
Record ExecResult : Type :=
  { success : bool; error : ExecutionError; data : list Js.row }.

(** The three collaborators the excerpt calls on [self].  Each may depend on
    and change the outside world (the model's answers, the backend's data),
    which is threaded through explicitly. *)
Record Services (World : Type) : Type :=
  { _generate_query : string -> World -> string * World;
    _execute_query : string -> World -> ExecResult * World;
    _fix_query : string -> ExecutionError -> World -> string * World }.

Arguments _generate_query {World}.
Arguments _execute_query {World}.
Arguments _fix_query {World}.

(** What a run does to its collaborators, in order. *)
Inductive Event : Type :=
  | Generated (question query : string)
  | Executed (query : string) (result : ExecResult)
  | Fixed (failed : string) (err : ExecutionError) (corrected : string).

(** What the two formatting helpers build: [_format_success_response]
    the answer of DONE(success), [_format_error_response] that of
    DONE(exhausted). *)
Inductive Response : Type :=
  | SuccessResponse (result : ExecResult)
  | ErrorResponse.

(** The exception the excerpt can raise by itself: the name error of a name
    that is not bound. *)
Inductive Exception : Type :=
  | NameError (name : string).

(** How a call of the function ends: at a [return] statement, at the end
    of its body (Python's [None]), or with an exception that leaves the
    function, which has no [try]. *)
Inductive Outcome : Type :=
  | Returned (response : Response)
  | ReturnedNone
  | Raised (exn : Exception).

(** A state monad over the world and the event log. *)
Definition M (World A : Type) : Type :=
  World * list Event -> A * (World * list Event).

Definition ret {World A} (a : A) : M World A := fun s => (a, s).

Definition bind {World A B} (m : M World A) (f : A -> M World B)
  : M World B :=
  fun s => let (a, s') := m s in f a s'.

Notation "x <- m ;; k" := (bind m (fun x => k))
  (at level 61, m at next level, right associativity).

Section Run.
Context {World : Type} (self : Services World).

Definition generate_query (question : string) : M World string :=
  fun '(w, log) =>
    let (query, w') := _generate_query self question w in
    (query, (w', (log ++ [Generated question query])%list)).

Definition execute_query (query : string) : M World ExecResult :=
  fun '(w, log) =>
    let (result, w') := _execute_query self query w in
    (result, (w', (log ++ [Executed query result])%list)).

Definition fix_query (query : string) (err : ExecutionError)
  : M World string :=
  fun '(w, log) =>
    let (fixed, w') := _fix_query self query err w in
    (fixed, (w', (log ++ [Fixed query err fixed])%list)).

(** The body of [for attempt in range(max_attempts)], over the attempt
    numbers still to come.  The corrected query is bound to [query] and
    the loop goes round; the next round binds [query] anew from
    [_generate_query].  When the range runs out the function falls off its
    end.

    The last branch is [return self._format_error_response(attempts)].
    The names bound in the function are [self], [question],
    [max_attempts], [attempt], [query] and [result]; [attempts] is not
    among them, so evaluating the argument raises a name error before the
    helper is called and before anything is returned. *)
Fixpoint attempts_loop (max_attempts : nat) (question : string)
         (range : list nat) : M World Outcome :=
  match range with
  | [] => ret ReturnedNone
  | attempt :: rest =>
      query <- generate_query question ;;
      result <- execute_query query ;;
      if success result then ret (Returned (SuccessResponse result))
      else if (attempt <? max_attempts - 1)%nat then
        query' <- fix_query query (error result) ;;
        attempts_loop max_attempts question rest
      else ret (Raised (NameError "attempts"))
  end.

Definition max_attempts : nat := 3.

Definition answer_with_self_correction (question : string)
  : M World Outcome :=
  attempts_loop max_attempts question (seq 0 max_attempts).

(** A run from a world, with an empty log. *)
Definition run (question : string) (w : World)
  : Outcome * (World * list Event) :=
  answer_with_self_correction question (w, []).

End Run.

(** Readings of an event log. *)
Definition is_execution (e : Event) : bool :=
  match e with Executed _ _ => true | _ => false end.

Definition is_correction (e : Event) : bool :=
  match e with Fixed _ _ _ => true | _ => false end.

Definition executions (log : list Event) : nat :=
  List.length (filter is_execution log).

Definition corrections (log : list Event) : nat :=
  List.length (filter is_correction log).

Fixpoint executed_queries (log : list Event) : list string :=
  match log with
  | [] => []
  | Executed q _ :: log' => q :: executed_queries log'
  | _ :: log' => executed_queries log'
  end.

(** A log that is the record of real calls: from the first world, each
    event is a call of the collaborator it names on the arguments it
    names, its output is the output recorded, and the worlds are handed on
    from call to call up to the last world. *)
Inductive Replays {World : Type} (self : Services World)
  : World -> list Event -> World -> Prop :=
  | replays_nil (w : World) : Replays self w [] w
  | replays_generated (w : World) (question : string)
                      (log : list Event) (w' : World) :
      Replays self (snd (_generate_query self question w)) log w' ->
      Replays self w
              (Generated question (fst (_generate_query self question w))
                 :: log) w'
  | replays_executed (w : World) (query : string)
                     (log : list Event) (w' : World) :
      Replays self (snd (_execute_query self query w)) log w' ->
      Replays self w
              (Executed query (fst (_execute_query self query w)) :: log) w'
  | replays_fixed (w : World) (query : string) (err : ExecutionError)
                  (log : list Event) (w' : World) :
      Replays self (snd (_fix_query self query err w)) log w' ->
      Replays self w
              (Fixed query err (fst (_fix_query self query err w)) :: log) w'.

(** The situations the claims speak of. *)

(** Every execution fails, whatever the query and the state of the world. *)
Definition always_fails {World} (self : Services World) : Prop :=
  forall query w, success (fst (_execute_query self query w)) = false.

(** The corrector hands back the failed query, letter for letter. *)
Definition noop_corrector {World} (self : Services World) : Prop :=
  forall query err w, fst (_fix_query self query err w) = query.

(** The error kinds the specification calls environmental. *)
Definition environmental (k : ErrorKind) : bool :=
  match k with
  | connection | permission => true
  | syntax | timeout => false
  end.

End Orchestrator.

(* ------------------------------------------------------------------ *)
(** ** The similarity cache (architecture document, "Caching Strategy") *)

Module Cache.

(** [self.similarity_threshold = 0.8].  Similarities are modelled as
    rationals: the lookup only compares them with the threshold. *)
Definition similarity_threshold : Q := 8 # 10.

(** [similarity > threshold] *)
Definition greater (similarity threshold : Q) : bool :=
  negb (Qle_bool similarity threshold).

Section Lookup.
Context {Result : Type}.
(** [self._calculate_similarity], whose body is not part of the excerpt. *)
Variable _calculate_similarity : string -> string -> Q.

(** [get_similar_query]: [self.query_cache.items()] is walked in insertion
    order and the first entry over the threshold is returned. *)
Fixpoint get_similar_query (query_cache : list (string * Result))
         (question : string) : option Result :=
  match query_cache with
  | [] => None
  | (cached_q, result) :: rest =>
      let similarity := _calculate_similarity question cached_q in
      if greater similarity similarity_threshold then Some result
      else get_similar_query rest question
  end.

End Lookup.

End Cache.

(* ------------------------------------------------------------------ *)
(** ** The similarity cache in front of query generation *)

Module CachedRun.
Import Orchestrator.

Section Start.
Context {World Entry : Type}.
(** [self._calculate_similarity], and the resulting query of a cache
    entry. *)
Variable _calculate_similarity : string -> string -> Q.
Variable cached_query : Entry -> string.


End Start.

End CachedRun.

(* ------------------------------------------------------------------ *)
(** ** Query execution with a row limit ([FabricService.execute_query] and
       the [/api/fabric/query] request body) *)

Module Executor.

(** [limit: int = 100] in the signature; the request body documents the
    same default. *)
Definition default_limit : nat := 100.

(** Modelled from the spec: the default of the executor's row cap,
    "configurable, default 1000".  The source has no body that reads it; it
    names the same figure as [MAX_QUERY_ROWS=1000], [max_result_rows] and
    the "max: 1000" of the request's limit. *)
Definition default_row_cap : nat := 1000.

(** The rows handed back, their number, and the number of rows the query
    produced ([data], [row_count], [total_rows] in the API document). *)
Record QueryResponse : Type :=
  { data : list Js.row; row_count : nat; total_rows : nat }.

(** Modelled from the spec: the body of [execute_query], of which the source
    has the signature and a one-line comment only.  In the spec's words the
    executor "enforces a row cap on the returned result (configurable,
    default 1000)" and returns the "total row count (which may exceed the
    capped/returned row count)".  The [limit] of the signature asks for
    fewer rows within the cap.  [backend] stands for the SQL transport: the
    rows the query produces. *)
Definition execute_query_capped (row_cap : nat)
           (backend : string -> list Js.row)
           (query : string) (limit : option nat) : QueryResponse :=
  let limit := match limit with Some n => n | None => default_limit end in
  let rows := backend query in
  let returned := firstn (Nat.min limit row_cap) rows in
  {| data := returned;
     row_count := List.length returned;
     total_rows := List.length rows |}.

(** The executor as configured by default. *)
Definition execute_query : (string -> list Js.row) -> string -> option nat
                           -> QueryResponse :=
  execute_query_capped default_row_cap.

End Executor.

(* ------------------------------------------------------------------ *)
(** ** The chat front end ([EnhancedChatInterface.tsx], [sendMessage]) *)

Module Chat.

(** The fields of [response.data] that decide the conversation context. *)
Record Result : Type :=
  { success : Js.value; query : Js.value; query_language : Js.value }.

(** [await axios.post(...)] either resolves with a result or throws. *)
Inductive Post : Type :=
  | Resolved (result : Result)
  | Rejected.

(** The component state [sendMessage] reads and writes. *)
Record State : Type :=
  { input : string; loading : bool; conversationContext : list string }.

(** [useState('')], [useState(false)], [useState<string[]>([])] *)
Definition initial : State :=
  {| input := EmptyString; loading := false; conversationContext := [] |}.

(** [prev.slice(-n)]: the last [n] elements, all of them when there are
    fewer. *)
Definition slice_last (n : nat) (prev : list string) : list string :=
  skipn (List.length prev - n) prev.

Definition newline : string := String (ascii_of_nat 10) EmptyString.

(** The template literal
    [Q: ${question}\n${result.query_language || 'Query'}: ${result.query}] *)
Definition contextEntry (question : string) (result : Result) : string :=
  "Q: " ++ question ++ newline
    ++ Js.to_String (Js.or (query_language result) (Js.Str "Query"))
    ++ ": " ++ Js.to_String (query result).

(** [messageText || input] *)
Definition question_of (st : State) (messageText : option string) : string :=
  match messageText with
  | Some (String c s) => String c s
  | _ => input st
  end.

(** [!question.trim() || loading]: the call returns at once. *)
Definition ignored (st : State) (messageText : option string) : bool :=
  Js.blank (question_of st messageText) || loading st.

(** The entry handed to [setConversationContext], when that line is
    reached: the request resolved and [result.success && result.query] is
    truthy. *)
Definition appended_entry (st : State) (messageText : option string)
           (post : Post) : option string :=
  if ignored st messageText then None
  else match post with
       | Resolved result =>
           if Js.truthy (success result) && Js.truthy (query result)
           then Some (contextEntry (question_of st messageText) result)
           else None
       | Rejected => None
       end.

(** [prev => [...prev.slice(-2), contextEntry]] *)
Definition push (prev : list string) (entry : string) : list string :=
  (slice_last 2 prev ++ [entry])%list.

(** The state once [sendMessage(messageText)] has run to its [finally]. *)
Definition sendMessage (st : State) (messageText : option string)
           (post : Post) : State :=
  if ignored st messageText then st
  else
    {| input := match messageText with
                | Some (String _ _) => input st
                | _ => EmptyString
                end;
       loading := false;
       conversationContext :=
         match appended_entry st messageText post with
         | Some entry => push (conversationContext st) entry
         | None => conversationContext st
         end |}.

(** What can happen to the component between renders. *)
Inductive Action : Type :=
  | Send (messageText : option string) (post : Post)
  | Type_ (text : string)            (* [setInput(e.target.value)] *)
  | ClearContext.                    (* [setConversationContext([])] *)

Definition step (st : State) (a : Action) : State :=
  match a with
  | Send messageText post => sendMessage st messageText post
  | Type_ text =>
      {| input := text; loading := loading st;
         conversationContext := conversationContext st |}
  | ClearContext =>
      {| input := input st; loading := loading st;
         conversationContext := [] |}
  end.

Definition run (actions : list Action) : State :=
  fold_left step actions initial.

(** The capacity of the context: the two entries [slice(-2)] keeps, and the
    new one. *)
Definition K : nat := 2 + 1.

(** Modelled from the spec: [recent(n)] of the ConversationContext
    contract, the last [n] entries, most recent last.  The source reads the
    context whole ([context_history: conversationContext]). *)
Definition recent (n : nat) (st : State) : list string :=
  slice_last n (conversationContext st).

(** The turns the claims speak of: a question passed to [sendMessage] and
    the result the request resolved with. *)

(** A turn whose question is not blank and whose result is truthy in both
    [success] and [query]. *)
Definition successful (turn : string * Result) : Prop :=
  Js.blank (fst turn) = false
  /\ Js.truthy (success (snd turn)) = true
  /\ Js.truthy (query (snd turn)) = true.

Definition send_turn (turn : string * Result) : Action :=
  Send (Some (fst turn)) (Resolved (snd turn)).

Definition entry_of (turn : string * Result) : string :=
  contextEntry (fst turn) (snd turn).

End Chat.

(* ------------------------------------------------------------------ *)
(** ** The result table and its CSV export ([VirtualizedDataTable]) *)

Module Table.

Definition quote : string := String (ascii_of_nat 34) EmptyString.
Definition newline : string := String (ascii_of_nat 10) EmptyString.

(** The [replace] of [exportToCSV], with its global pattern: every double
    quote character of the text is written twice. *)
Fixpoint escape_quotes (s : string) : string :=
  match s with
  | EmptyString => EmptyString
  | String c s' =>
      if Ascii.eqb c (ascii_of_nat 34)
      then String c (String c (escape_quotes s'))
      else String c (escape_quotes s')
  end.

(** [String(row[col] || '')], the text of a cell on screen, in its tooltip
    and in the export. *)
Definition cell_text (r : Js.row) (col : string) : string :=
  Js.to_String (Js.or (Js.get r col) (Js.Str EmptyString)).

Definition csv_field (r : Js.row) (col : string) : string :=
  quote ++ escape_quotes (cell_text r col) ++ quote.

Definition csv_line (columns : list string) (r : Js.row) : string :=
  Str.join "," (map (csv_field r) columns).

(** [csvContent] of [exportToCSV]. *)
Definition csvContent (columns : list string) (processedData : list Js.row)
  : string :=
  Str.join newline
    (Str.join "," columns :: map (csv_line columns) processedData).

(** [exportToCSV] of [VirtualizedDataTable.tsx]: no file when there is no
    row to export. *)
Definition exportToCSV (columns : list string) (processedData : list Js.row)
  : option string :=
  match processedData with
  | [] => None
  | _ => Some (csvContent columns processedData)
  end.

(** [exportToCSV] of the copy inside [EnhancedChatInterface.tsx], which has
    no such guard. *)
Definition exportToCSV_chat (columns : list string)
           (processedData : list Js.row) : string :=
  csvContent columns processedData.

(** The [Row] renderer of [VirtualizedDataTable.tsx]: the cell texts of row
    [index]; reading a property of [processedData[index]] throws when the
    index is out of range. *)
Definition Row (columns : list string) (processedData : list Js.row)
           (index : nat) : option (list string) :=
  match nth_error processedData index with
  | Some r => Some (map (cell_text r) columns)
  | None => None
  end.

(** The table body of the chat interface: the first 200 rows. *)
Definition table_body (columns : list string) (processedData : list Js.row)
  : list (list string) :=
  map (fun r => map (cell_text r) columns) (firstn 200 processedData).

(** Two cell values that are equal, or both falsy (a zero and a missing
    value, say); two rows whose cells are so related in every column. *)
Definition alike (a b : Js.value) : Prop :=
  a = b \/ (Js.truthy a = false /\ Js.truthy b = false).

Definition rows_alike (columns : list string) (r1 r2 : Js.row) : Prop :=
  forall col, In col columns -> alike (Js.get r1 col) (Js.get r2 col).

End Table.

(* ------------------------------------------------------------------ *)
(** ** Fixture backends, after the scenarios of the specification *)

Module Fixture.
Import Orchestrator.

Definition failure (k : ErrorKind) (msg : string) : ExecResult :=
  {| success := false; error := {| kind := k; message := msg |}; data := [] |}.

Definition two_rows : ExecResult :=
  {| success := true;
     error := {| kind := syntax; message := EmptyString |};
     data := [[("Customer", Js.Str "Acme Corp"); ("Revenue", Js.Num 2300000)];
              [("Customer", Js.Str "Global Industries");
               ("Revenue", Js.Num 1800000)]] |}.

(** A backend that rejects every query with an error of kind [k]; the
    generator always writes [generated] and the corrector rewrites a failed
    query with [rewrite]. *)
Definition rejecting (k : ErrorKind) (generated : string)
           (rewrite : string -> string) : Services unit :=
  {| _generate_query := fun _ w => (generated, w);
     _execute_query := fun _ w => (failure k "Invalid column name 'Rev'", w);
     _fix_query := fun query _ w => (rewrite query, w) |}.

(** A backend that answers every query with two rows. *)
Definition answering (generated : string) : Services unit :=
  {| _generate_query := fun _ w => (generated, w);
     _execute_query := fun _ w => (two_rows, w);
     _fix_query := fun query _ w => (query, w) |}.

(** A backend whose first execution fails on an unknown column and whose
    later ones answer; the world counts the executions made so far. *)
Definition failing_once (generated : string) (rewrite : string -> string)
  : Services nat :=
  {| _generate_query := fun _ w => (generated, w);
     _execute_query :=
       fun _ w =>
         (match w with
          | 0 => failure syntax "Invalid column name 'Rev'"
          | S _ => two_rows
          end, S w);
     _fix_query := fun query _ w => (rewrite query, w) |}.

(** A backend that rejects every query and counts the calls made to it in
    the world; the corrector always proposes [good_query], defined below
    with the questions. *)
Definition counting (generated : string) : Services nat :=
  {| _generate_query := fun _ w => (generated, w);
     _execute_query :=
       fun _ w => (failure syntax "Invalid column name 'Rev'", S w);
     _fix_query :=
       fun _ _ w => ("SELECT TOP 2 Customer, Revenue FROM Sales", w) |}.

Definition bad_query : string := "SELECT TOP 2 Customer, Rev FROM Sales".
Definition good_query : string := "SELECT TOP 2 Customer, Revenue FROM Sales".
Definition the_question : string := "show top 2 customers by revenue".

End Fixture.

(* ------------------------------------------------------------------ *)
(** ** The table's controls: sorting and filtering
       ([VirtualizedDataTable.tsx] and its copy in
       [EnhancedChatInterface.tsx]) *)

Module TableView.

Inductive Direction : Type := asc | desc.

(** [sortConfig]: [null] or a key and a direction. *)
Record SortConfig : Type := { key : string; direction : Direction }.

Definition flip (d : Direction) : Direction :=
  match d with asc => desc | desc => asc end.

(** [handleSort(columnKey)] of [VirtualizedDataTable.tsx], as the function
    it hands to [setSortConfig]. *)
Definition handleSort (columnKey : string) (current : option SortConfig)
  : option SortConfig :=
  match current with
  | Some c =>
      if String.eqb (key c) columnKey
      then Some {| key := columnKey; direction := flip (direction c) |}
      else Some {| key := columnKey; direction := asc |}
  | None => Some {| key := columnKey; direction := asc |}
  end.

(** The [onClick] of a header cell in the chat interface's copy:
    [current?.key === col && current.direction === 'asc' ? 'desc' : 'asc']. *)
Definition header_click (col : string) (current : option SortConfig)
  : option SortConfig :=
  Some {| key := col;
          direction :=
            if match current with
               | Some c => String.eqb (key c) col
                           && match direction c with
                              | asc => true
                              | desc => false
                              end
               | None => false
               end
            then desc else asc |}.

(** The mark beside a column name: an arrow up or down on the sorted
    column, a double arrow on the others. *)
Inductive Mark : Type := ArrowUp | ArrowDown | ArrowBoth.

Definition sort_mark (sortConfig : option SortConfig) (col : string) : Mark :=
  match sortConfig with
  | Some c =>
      if String.eqb (key c) col
      then match direction c with asc => ArrowUp | desc => ArrowDown end
      else ArrowBoth
  | None => ArrowBoth
  end.

(** [Object.values(row)]; the rows are JSON objects, whose keys are
    distinct. *)
Definition values (r : Js.row) : list Js.value := map snd r.

(** [Object.keys(row)] *)
Definition keys (r : Js.row) : list string := map fst r.

(** The test of the filter on one row:
    [String(value).toLowerCase().includes(filterText.toLowerCase())] for
    some value of the row. *)
Definition matches (filterText : string) (r : Js.row) : bool :=
  existsb (fun value =>
             Str.contains (Str.lower filterText)
                          (Str.lower (Js.to_String value)))
          (values r).

(** The filter stage of [processedData] in [VirtualizedDataTable.tsx]:
    [filtered] is [data] itself unless [filterText] is non-empty. *)
Definition filtered (data : list Js.row) (filterText : string)
  : list Js.row :=
  match filterText with
  | EmptyString => data
  | String _ _ => filter (matches filterText) data
  end.

(** The filter stage of the chat interface's copy, which always filters. *)
Definition filtered_chat (data : list Js.row) (filterText : string)
  : list Js.row :=
  filter (fun r => match filterText with
                   | EmptyString => true
                   | String _ _ => matches filterText r
                   end) data.

(** [Math.min(processedData.length, 200)], the count in the footer of the
    chat interface's table. *)
Definition shown_count (processedData : list Js.row) : nat :=
  Nat.min (List.length processedData) 200.

(** [columns || (data.length > 0 ? Object.keys(data[0]) : [])] of
    [EnhancedDataDisplay]; the chat interface passes
    [Object.keys(message.data[0])] for a non-empty [message.data]. *)
Definition detectedColumns (columns : option (list string))
           (data : list Js.row) : list string :=
  match columns with
  | Some c => c
  | None => match data with
            | first :: _ => keys first
            | [] => []
            end
  end.

End TableView.

(* ------------------------------------------------------------------ *)
(** ** Which questions get a chart ([EnhancedChatInterface.tsx]) *)

Module Visual.

Definition visualKeywords : list string :=
  ["show"; "display"; "chart"; "graph"; "plot"; "trend"; "distribution";
   "top"; "compare"; "by region"; "by category"; "over time"; "breakdown"].

(** [isVisualizableQuestion] *)
Definition isVisualizableQuestion (question : string) : bool :=
  existsb (fun keyword => Str.contains keyword (Str.lower question))
          visualKeywords.

(** [recommendChartType] of the chat interface's [IntelligentVisualization] *)
Definition recommendChartType (question : string) : string :=
  let questionLower := Str.lower question in
  if Str.contains "trend" questionLower
     || Str.contains "over time" questionLower then "line"
  else if Str.contains "distribution" questionLower
          || Str.contains "breakdown" questionLower then "pie"
  else if Str.contains "correlation" questionLower
          || Str.contains "versus" questionLower then "scatter"
  else "bar".

End Visual.

(* ------------------------------------------------------------------ *)
(** ** The message list of the chat ([sendMessage]) *)

Module Messages.

Inductive Sender : Type := user | assistant.

(** The fields of a [Message] the properties read.  [text] is typed as a
    string, but the assistant's text is whatever [result.answer] holds. *)
Record Message : Type :=
  { id : Z; text : Js.value; sender : Sender;
    success : Js.value; query : Js.value }.

(** The fields of [response.data] that reach the message, for a result
    whose [execution_time] is a number or missing, so that the logging line
    that ends the [try] block does not throw. *)
Record Reply : Type :=
  { answer : Js.value; r_success : Js.value; r_query : Js.value }.

Inductive Post : Type :=
  | Resolved (result : Reply)
  | Rejected.

(** [userMessage], with [Date.now()] as its id. *)
Definition userMessage (now : Z) (question : string) : Message :=
  {| id := now; text := Js.Str question; sender := user;
     success := Js.Undefined; query := Js.Undefined |}.

(** [thinkingMessage]: the placeholder, whose text every path replaces. *)
Definition thinkingMessage (thinkingId : Z) (placeholder : string) : Message :=
  {| id := thinkingId; text := Js.Str placeholder; sender := assistant;
     success := Js.Undefined; query := Js.Undefined |}.

(** The object spread of the [try] block and that of the [catch] block. *)
Definition completed (msg : Message) (post : Post) : Message :=
  match post with
  | Resolved result =>
      {| id := id msg;
         text := Js.or (answer result) (Js.Str "Analysis completed");
         sender := sender msg;
         success := r_success result;
         query := r_query result |}
  | Rejected =>
      {| id := id msg;
         text := Js.Str ("Sorry, I encountered an error while analyzing "
                           ++ "your question. Please try again.");
         sender := sender msg;
         success := Js.Bool false;
         query := query msg |}
  end.

(** The three [setMessages] updates of a call that is not ignored, one
    after the other: the user's message, the placeholder, and the
    [prev.map] that completes every message whose id is [thinkingId].
    [now1] and [now2] are the two readings of [Date.now()]. *)
Definition sendMessage_messages (prev : list Message) (question : string)
           (now1 now2 : Z) (placeholder : string) (post : Post)
  : list Message :=
  let thinkingId := (now2 + 1)%Z in
  let with_user := (prev ++ [userMessage now1 question])%list in
  let with_placeholder :=
    (with_user ++ [thinkingMessage thinkingId placeholder])%list in
  map (fun msg => if (id msg =? thinkingId)%Z then completed msg post
                  else msg)
      with_placeholder.

End Messages.

(* ------------------------------------------------------------------ *)
(** ** The monitoring dashboard's history ([fetchMonitoringData]) *)

Module Monitoring.

Section History.
(** The numbers of the health report and their [toFixed(1)]. *)
Context {Number : Type} (toFixed1 : Number -> string).

Record HistoricalMetric : Type :=
  { timestamp : string; value : Number; label : string }.

Record HistoricalData : Type :=
  { cacheHitRate : list HistoricalMetric;
    systemHealth : list HistoricalMetric;
    performance : list HistoricalMetric }.

(** The fields of [response.data.health] the history reads. *)
Record Health : Type :=
  { hit_rate_percentage : Number;
    score : Number;
    status : string;
    cpu_usage_percent : Number }.

(** [prev.slice(-n)] *)
Definition slice_last (n : nat) (prev : list HistoricalMetric)
  : list HistoricalMetric :=
  skipn (List.length prev - n) prev.

(** The updater handed to [setHistoricalData]. *)
Definition record_point (now : string) (health : Health)
           (prev : HistoricalData) : HistoricalData :=
  {| cacheHitRate :=
       (slice_last 19 (cacheHitRate prev)
          ++ [{| timestamp := now;
                 value := hit_rate_percentage health;
                 label := toFixed1 (hit_rate_percentage health) ++ "%" |}])%list;
     systemHealth :=
       (slice_last 19 (systemHealth prev)
          ++ [{| timestamp := now;
                 value := score health;
                 label := status health |}])%list;
     performance :=
       (slice_last 19 (performance prev)
          ++ [{| timestamp := now;
                 value := cpu_usage_percent health;
                 label := "CPU: " ++ toFixed1 (cpu_usage_percent health)
                            ++ "%" |}])%list |}.

(** One poll: the request resolves with [success] and a health report at
    some time, or it fails (a falsy [success], or a thrown request) and the
    history is left alone. *)
Inductive Poll : Type :=
  | Reported (now : string) (health : Health)
  | Failed.

Definition fetchMonitoringData (prev : HistoricalData) (p : Poll)
  : HistoricalData :=
  match p with
  | Reported now health => record_point now health prev
  | Failed => prev
  end.

Definition no_history : HistoricalData :=
  {| cacheHitRate := []; systemHealth := []; performance := [] |}.

Definition polls (ps : list Poll) : HistoricalData :=
  fold_left fetchMonitoringData ps no_history.

Definition is_report (p : Poll) : bool :=
  match p with Reported _ _ => true | Failed => false end.

(** The three series have the same number of points, [n] polls having
    reported but never more than 20, taken at the same times. *)
Definition aligned (h : HistoricalData) (n : nat) : Prop :=
  List.length (cacheHitRate h) = Nat.min 20 n
  /\ map timestamp (systemHealth h) = map timestamp (cacheHitRate h)
  /\ map timestamp (performance h) = map timestamp (cacheHitRate h).

End History.

End Monitoring.

(* ------------------------------------------------------------------ *)
(** ** The backend's context manager (architecture document,
       "Context Management") *)

Module ContextManager.

(** An entry of [conversation_history]; [timestamp] is the reading of
    [datetime.now()], kept abstract as a number. *)
Record context_entry : Type :=
  { question : string; query : string; timestamp : Z; row_count : nat }.

(** [add_context(question, query, results)].  [results] is a dictionary;
    [results.get("data", [])] is its list of rows, the empty list when the
    key is missing, which is all the method reads of it. *)
Definition add_context (conversation_history : list context_entry)
           (question query : string) (results_data : option (list Js.row))
           (now : Z) : list context_entry :=
  (conversation_history
     ++ [{| question := question;
            query := query;
            timestamp := now;
            row_count := List.length (match results_data with
                                      | Some rows => rows
                                      | None => []
                                      end) |}])%list.

(** A call, with the clock's reading. *)
Definition call : Type := string * string * option (list Js.row) * Z.

Definition add_all (calls : list call) : list context_entry :=
  fold_left (fun history '(question, query, results_data, now) =>
               add_context history question query results_data now)
            calls [].

(** The entry a call is expected to leave in the history. *)
Definition entry_of_call (c : call) : context_entry :=
  let '(question, query, results_data, now) := c in
  {| question := question; query := query; timestamp := now;
     row_count := match results_data with
                  | Some rows => List.length rows
                  | None => 0
                  end |}.

End ContextManager.

(* ------------------------------------------------------------------ *)
(** ** The chart recommendation of the full [IntelligentVisualization]
       component ([chartAnalysis]) *)

Module ChartAnalysis.

(** *** The regular expressions, as matchers *)

Definition is_digit (c : ascii) : bool :=
  let n := nat_of_ascii c in ((48 <=? n) && (n <=? 57))%nat.

(** [\w]: a letter, a digit or the underscore. *)
Definition is_word_char (c : ascii) : bool :=
  let n := nat_of_ascii c in
  (((48 <=? n) && (n <=? 57)) || ((65 <=? n) && (n <=? 90))
   || ((97 <=? n) && (n <=? 122)) || (n =? 95))%nat.

(** [\d{n}] at the head of [s]: what is left of [s] behind [n] digits. *)
Fixpoint digits (n : nat) (s : string) : option string :=
  match n with
  | 0 => Some s
  | S n' => match s with
            | String c s' => if is_digit c then digits n' s' else None
            | EmptyString => None
            end
  end.

(** One given character at the head of [s]. *)
Definition expect (c : ascii) (s : string) : option string :=
  match s with
  | String d s' => if Ascii.eqb c d then Some s' else None
  | EmptyString => None
  end.

Definition and_then (o : option string) (k : string -> bool) : bool :=
  match o with Some s => k s | None => false end.

Definition is_some (o : option string) : bool :=
  match o with Some _ => true | None => false end.

Definition hyphen : ascii := ascii_of_nat 45.
Definition slash : ascii := ascii_of_nat 47.

(** The test of the pattern: start of text, four digits, a hyphen, two
    digits, a hyphen, two digits. *)
Definition iso_date_prefix (s : string) : bool :=
  and_then (digits 4 s) (fun s1 =>
  and_then (expect hyphen s1) (fun s2 =>
  and_then (digits 2 s2) (fun s3 =>
  and_then (expect hyphen s3) (fun s4 =>
  is_some (digits 2 s4))))).

(** [\d{1,2}] followed by the rest of the pattern: two digits are tried
    first, then one. *)
Definition one_or_two_digits (s : string) (k : string -> bool) : bool :=
  and_then (digits 2 s) k || and_then (digits 1 s) k.

(** The test of the pattern: start of text, one or two digits, a slash, one
    or two digits, a slash, four digits. *)
Definition slash_date_prefix (s : string) : bool :=
  one_or_two_digits s (fun s1 =>
  and_then (expect slash s1) (fun s2 =>
  one_or_two_digits s2 (fun s3 =>
  and_then (expect slash s3) (fun s4 =>
  is_some (digits 4 s4))))).

(** [\b] between the character before (none at the start of the text) and
    the text that follows. *)
Definition boundary (prev : option ascii) (rest : string) : bool :=
  xorb (match prev with Some c => is_word_char c | None => false end)
       (match rest with String c _ => is_word_char c | EmptyString => false end).

(** A literal at the head of [s]: the last character read (or the one
    before, for an empty literal) and what is left. *)
Fixpoint literal (alt s : string) (prev : option ascii)
  : option (option ascii * string) :=
  match alt with
  | EmptyString => Some (prev, s)
  | String a alt' =>
      match s with
      | String c s' => if Ascii.eqb a c then literal alt' s' (Some c) else None
      | EmptyString => None
      end
  end.

(** [\b(alt1|alt2|...)\b] tried at one position. *)
Definition word_at (alts : list string) (prev : option ascii) (s : string)
  : bool :=
  boundary prev s
  && existsb (fun alt => match literal alt s prev with
                         | Some (last, rest) => boundary last rest
                         | None => false
                         end) alts.

(** [/\b(alt1|alt2|...)\b/.test(s)]: the pattern is tried at every
    position of the text. *)
Fixpoint word_search (alts : list string) (prev : option ascii) (s : string)
  : bool :=
  word_at alts prev s
  || match s with
     | String c s' => word_search alts (Some c) s'
     | EmptyString => false
     end.

Definition word_test (alts : list string) (s : string) : bool :=
  word_search alts None s.

(** The alternatives of the four patterns, the nested group of the first
    written out. *)
Definition time_series_words : list string :=
  ["trend"; "over time"; "by year"; "by month"; "by quarter"; "by day";
   "timeline"; "progression"].
Definition comparison_words : list string :=
  ["compare"; "versus"; "vs"; "difference"; "top"; "bottom"; "highest";
   "lowest"].
Definition distribution_words : list string :=
  ["breakdown"; "distribution"; "split"; "percentage"; "share"].
Definition correlation_words : list string :=
  ["relationship"; "correlation"; "scatter"; "versus"].

(** *** The columns *)

(** [typeof v === 'number' && !isNaN(v)] *)
Definition is_number (v : Js.value) : bool :=
  match v with Js.Num _ => true | _ => false end.

(** The date test of a cell; a row that comes out of JSON holds no [Date]
    object, which leaves the two patterns. *)
Definition looks_like_date (v : Js.value) : bool :=
  Js.truthy v
  && (iso_date_prefix (Js.to_String v) || slash_date_prefix (Js.to_String v)).

(** [list.includes(col)] *)
Definition includes (l : list string) (col : string) : bool :=
  existsb (String.eqb col) l.

(** [Object.keys(data[0])], for column names that are not array indices
    (which JavaScript would list first). *)
Definition columns_of (first : Js.row) : list string := TableView.keys first.

Definition numericColumns (data : list Js.row) (columns : list string)
  : list string :=
  filter (fun col => existsb (fun r => is_number (Js.get r col)) data) columns.

Definition dateColumns (data : list Js.row) (columns : list string)
  : list string :=
  filter (fun col => existsb (fun r => looks_like_date (Js.get r col)) data)
         columns.

Definition textColumns (data : list Js.row) (columns : list string)
  : list string :=
  filter (fun col => negb (includes (numericColumns data columns) col)
                     && negb (includes (dateColumns data columns) col))
         columns.

(** The equality of a [Set]: same value, with NaN equal to itself. *)
Definition same_value (a b : Js.value) : bool :=
  match a, b with
  | Js.Undefined, Js.Undefined => true
  | Js.Null, Js.Null => true
  | Js.Bool x, Js.Bool y => Bool.eqb x y
  | Js.Num x, Js.Num y => (x =? y)%Z
  | Js.NaN, Js.NaN => true
  | Js.Str x, Js.Str y => String.eqb x y
  | _, _ => false
  end.

Fixpoint distinct (vs : list Js.value) : list Js.value :=
  match vs with
  | [] => []
  | v :: vs' => if existsb (same_value v) vs' then distinct vs'
                else v :: distinct vs'
  end.

(** [new Set(data.map(row => row[col])).size] *)
Definition categories (data : list Js.row) (col : string) : nat :=
  List.length (distinct (map (fun r => Js.get r col) data)).

(** *** The analysis *)

(** [a || b] on column names that may be undefined. *)
Definition or_else (a b : option string) : option string :=
  match a with
  | Some (String c s) => Some (String c s)
  | _ => b
  end.

Record Analysis : Type :=
  { recommendedType : string;
    reasoning : string;
    confidence : nat;
    alternatives : list string;
    xAxis : option string;
    yAxis : list (option string);
    timeColumn : option string }.

(** [chartAnalysis] for [data] and [question]. *)
Definition chartAnalysis (data : list Js.row) (question : string) : Analysis :=
  match data with
  | [] =>
      {| recommendedType := "bar"; reasoning := "No data available";
         confidence := 0; alternatives := [];
         xAxis := Some EmptyString; yAxis := []; timeColumn := None |}
  | first :: _ =>
      let columns := columns_of first in
      let numericColumns := numericColumns data columns in
      let dateColumns := dateColumns data columns in
      let textColumns := textColumns data columns in
      let questionLower := Str.lower question in
      let isTimeSeriesQuestion := word_test time_series_words questionLower in
      let isComparisonQuestion := word_test comparison_words questionLower in
      let isDistributionQuestion :=
        word_test distribution_words questionLower in
      let isCorrelationQuestion :=
        word_test correlation_words questionLower in
      let xAxis0 := or_else (hd_error textColumns) (hd_error columns) in
      let yAxis0 := map Some (firstn 2 numericColumns) in
      let timeColumn := hd_error dateColumns in
      let few := fun limit col => (categories data col <=? limit)%nat in
      if isTimeSeriesQuestion
         && (0 <? List.length dateColumns)%nat
         && (0 <? List.length numericColumns)%nat then
        {| recommendedType := "line";
           reasoning := "Time series data detected with date column";
           confidence := 90; alternatives := ["area"; "bar"];
           xAxis := hd_error dateColumns;
           yAxis := map Some (firstn 1 numericColumns);
           timeColumn := timeColumn |}
      else if isCorrelationQuestion
              && (2 <=? List.length numericColumns)%nat then
        {| recommendedType := "scatter";
           reasoning := "Correlation analysis requires scatter plot";
           confidence := 85; alternatives := ["line"; "bar"];
           xAxis := hd_error numericColumns;
           yAxis := [nth_error numericColumns 1];
           timeColumn := timeColumn |}
      else if isDistributionQuestion
              && (0 <? List.length textColumns)%nat
              && (0 <? List.length numericColumns)%nat then
        if (0 <? List.length (filter (few 8) textColumns))%nat then
          {| recommendedType := "pie";
             reasoning := "Distribution analysis with limited categories";
             confidence := 80; alternatives := ["bar"; "area"];
             xAxis := or_else (find (few 8) textColumns)
                              (hd_error textColumns);
             yAxis := map Some (firstn 1 numericColumns);
             timeColumn := timeColumn |}
        else
          {| recommendedType := "bar";
             reasoning := "Distribution analysis with many categories";
             confidence := 75; alternatives := ["line"; "area"];
             xAxis := xAxis0; yAxis := yAxis0; timeColumn := timeColumn |}
      else if isComparisonQuestion
              && (0 <? List.length textColumns)%nat
              && (0 <? List.length numericColumns)%nat then
        {| recommendedType := "bar";
           reasoning := "Comparison analysis works best with bar charts";
           confidence := 85; alternatives := ["line"; "area"];
           xAxis := hd_error textColumns;
           yAxis := map Some (firstn 2 numericColumns);
           timeColumn := timeColumn |}
      else if (0 <? List.length dateColumns)%nat
              && (0 <? List.length numericColumns)%nat then
        {| recommendedType := "line";
           reasoning := "Date column present, likely time series";
           confidence := 70; alternatives := ["area"; "bar"];
           xAxis := hd_error dateColumns;
           yAxis := map Some (firstn 1 numericColumns);
           timeColumn := timeColumn |}
      else if (2 <=? List.length numericColumns)%nat then
        {| recommendedType := "scatter";
           reasoning := "Multiple numeric columns for correlation analysis";
           confidence := 65; alternatives := ["bar"; "line"];
           xAxis := hd_error numericColumns;
           yAxis := [nth_error numericColumns 1];
           timeColumn := timeColumn |}
      else if (0 <? List.length textColumns)%nat
              && (0 <? List.length numericColumns)%nat then
        if (match hd_error textColumns with
            | Some col => categories data col
            | None => categories data "undefined"
            end <=? 6)%nat then
          {| recommendedType := "pie";
             reasoning := "Few categories suitable for pie chart";
             confidence := 70; alternatives := ["bar"; "area"];
             xAxis := hd_error textColumns;
             yAxis := map Some (firstn 1 numericColumns);
             timeColumn := timeColumn |}
        else
          {| recommendedType := "bar";
             reasoning := "Many categories better shown as bar chart";
             confidence := 75; alternatives := ["line"; "area"];
             xAxis := hd_error textColumns;
             yAxis := map Some (firstn 1 numericColumns);
             timeColumn := timeColumn |}
      else
        {| recommendedType := "bar";
           reasoning := "Default bar chart for categorical data";
           confidence := 50; alternatives := ["line"; "pie"];
           xAxis := xAxis0; yAxis := yAxis0; timeColumn := timeColumn |}
  end.

(** [selectedType || (preferredType !== 'auto' ? preferredType :
    chartAnalysis.recommendedType)], the chart that is drawn. *)
Definition currentType (selectedType : option string) (preferredType : string)
           (analysis : Analysis) : string :=
  match or_else selectedType None with
  | Some t => t
  | None => if String.eqb preferredType "auto"
            then recommendedType analysis
            else preferredType
  end.

End ChartAnalysis.

(* ================================================================== *)
(** * Properties *)

(** ** Strings *)

Section StrFacts.
Import Str.

Lemma app_assoc (a b c : string) : (a ++ b) ++ c = a ++ (b ++ c).
Proof. induction a as [|x a IH]; simpl; [reflexivity | now rewrite IH]. Qed.

Lemma app_empty_r (a : string) : a ++ EmptyString = a.
Proof. induction a as [|x a IH]; simpl; [reflexivity | now rewrite IH]. Qed.

Lemma upper_app (a b : string) : upper (a ++ b) = upper a ++ upper b.
Proof. induction a as [|x a IH]; simpl; [reflexivity | now rewrite IH]. Qed.

Lemma startswith_Prefix (s p : string) :
  startswith s p = true <-> Prefix p s.
Proof.
  revert s; induction p as [|a p IH]; intros s; simpl.
  - split; [intros _; now exists s | reflexivity].
  - destruct s as [|b s].
    + split; [discriminate | intros [rest H]; discriminate H].
    + rewrite andb_true_iff, Ascii.eqb_eq, IH. split.
      * intros [-> [rest ->]]. now exists rest.
      * intros [rest H]. simpl in H. injection H as -> ->.
        split; [reflexivity | now exists rest].
Qed.

Lemma contains_Substring (kw s : string) :
  contains kw s = true <-> Substring kw s.
Proof.
  induction s as [|c s IH]; simpl.
  - rewrite startswith_Prefix. split.
    + intros [rest H]. exists EmptyString, rest. exact H.
    + intros [pre [post H]]. destruct pre; simpl in H.
      * now exists post.
      * discriminate H.
  - rewrite orb_true_iff, startswith_Prefix, IH. split.
    + intros [[rest H] | [pre [post H]]].
      * exists EmptyString, rest. exact H.
      * exists (String c pre), post. simpl. now rewrite H.
    + intros [pre [post H]]. destruct pre as [|d pre]; simpl in H.
      * left. now exists post.
      * right. injection H as _ H. now exists pre, post.
Qed.

(** A prefix of an upper-cased string comes from a prefix of the string. *)
Lemma upper_Prefix (p s : string) :
  Prefix p (upper s) <-> PrefixIgnoringCase p s.
Proof.
  split.
  - revert s; induction p as [|a p IH]; intros s [rest H].
    + exists EmptyString, s. split; reflexivity.
    + destruct s as [|b s]; simpl in H; [discriminate H|].
      injection H as Ha H.
      destruct (IH s (ex_intro _ rest H)) as [head [tl [-> Hu]]].
      exists (String b head), tl. simpl. now rewrite Ha, Hu.
  - intros [head [rest [-> <-]]]. exists (upper rest). apply upper_app.
Qed.

End StrFacts.

(** ** Query validation *)

Section ValidateFacts.
Import Str Validate.

Lemma dangerous_keyword_found (text : string) :
  existsb (fun keyword => contains keyword text) dangerous_keywords = true
  <-> exists keyword, In keyword dangerous_keywords /\ Substring keyword text.
Proof.
  rewrite existsb_exists. split; intros [kw [Hin H]]; exists kw;
    (split; [exact Hin | now apply contains_Substring]).
Qed.

(** Claim C9.  [validate_query] answers [True] for a query of type dax
    exactly when its stripped text starts with EVALUATE, case ignored, and
    [False] otherwise; it answers [False] for every query of type sql whose
    upper-cased text has one of DROP, DELETE, UPDATE, INSERT, TRUNCATE as a
    substring, wherever it stands: a query that names a column LastUpdated
    is rejected. *)
Theorem validate_query_dax_prefix_sql_substring :
  (forall query, exists b,
      validate_query query "dax" = Some b
      /\ (b = true <-> PrefixIgnoringCase "EVALUATE" (strip query)))
  /\ (forall query keyword,
         In keyword dangerous_keywords ->
         Substring keyword (upper query) ->
         validate_query query "sql" = Some false)
  /\ validate_query "SELECT LastUpdated FROM Orders" "sql" = Some false.
Proof.
  split; [|split].
  - intros query. exists (startswith (upper (strip query)) "EVALUATE").
    split; [reflexivity|].
    rewrite startswith_Prefix. apply upper_Prefix.
  - intros query keyword Hin Hsub. unfold validate_query. simpl.
    f_equal. apply negb_false_iff. apply dangerous_keyword_found.
    now exists keyword.
  - reflexivity.
Qed.

Lemma validate_query_dax_prefix_sql_substring_witness :
  validate_query "select Name from T where DropDate > 1" "sql" = Some false.
Proof.
  apply (proj1 (proj2 validate_query_dax_prefix_sql_substring) _ "DROP").
  - simpl. auto.
  - exists "SELECT NAME FROM T WHERE ", "DATE > 1". reflexivity.
Defined.

(** A query of type sql passes exactly when none of the keywords occurs. *)
Lemma validate_query_sql_accepts (query : string) :
  validate_query query "sql" = Some true
  <-> forall keyword, In keyword dangerous_keywords ->
                      ~ Substring keyword (upper query).
Proof.
  unfold validate_query. simpl String.eqb. cbv iota. split.
  - intros H keyword Hin Hsub. injection H as H.
    apply negb_true_iff in H.
    assert (E : existsb (fun k => contains k (upper query))
                        dangerous_keywords = true)
      by (apply dangerous_keyword_found; now exists keyword).
    simpl in E. congruence.
  - intros H. f_equal. apply negb_true_iff.
    apply not_true_is_false. intros E.
    apply dangerous_keyword_found in E. destruct E as [kw [Hin Hsub]].
    exact (H kw Hin Hsub).
Qed.

Example validate_query_dax_examples :
  validate_query "  evaluate 'Sales'" "dax" = Some true
  /\ validate_query "SELECT 1" "dax" = Some false
  /\ validate_query "EVALUATE 'Sales'" "DAX" = None.
Proof. repeat split. Qed.

End ValidateFacts.

(** ** The self-correcting orchestrator *)

Section LogFacts.
Import Orchestrator.

Lemma executions_app (l1 l2 : list Event) :
  executions (l1 ++ l2)%list = executions l1 + executions l2.
Proof. unfold executions. now rewrite filter_app, length_app. Qed.

Lemma corrections_app (l1 l2 : list Event) :
  corrections (l1 ++ l2)%list = corrections l1 + corrections l2.
Proof. unfold corrections. now rewrite filter_app, length_app. Qed.

Lemma executed_queries_app (l1 l2 : list Event) :
  executed_queries (l1 ++ l2)%list
  = (executed_queries l1 ++ executed_queries l2)%list.
Proof.
  induction l1 as [|[q1 q2|q r|q e c] l1 IH]; simpl;
    [reflexivity | exact IH | now rewrite IH | exact IH].
Qed.

End LogFacts.

Section OrchestratorFacts.
Import Orchestrator.
Context {World : Type} (self : Services World).

(** One round of the loop, spelled out on the world and the log. *)
Lemma attempts_loop_round (m : nat) (question : string) (attempt : nat)
      (rest : list nat) (w : World) (log : list Event) :
  attempts_loop self m question (attempt :: rest) (w, log) =
  let (query, w1) := _generate_query self question w in
  let (result, w2) := _execute_query self query w1 in
  let log2 := (log ++ [Generated question query; Executed query result])%list in
  if success result then (Returned (SuccessResponse result), (w2, log2))
  else if (attempt <? m - 1)%nat then
    let (fixed, w3) := _fix_query self query (error result) w2 in
    attempts_loop self m question rest
      (w3, (log2 ++ [Fixed query (error result) fixed])%list)
  else (Raised (NameError "attempts"), (w2, log2)).
Proof.
  simpl. unfold bind, generate_query, execute_query, fix_query, ret.
  destruct (_generate_query self question w) as [query w1].
  destruct (_execute_query self query w1) as [result w2].
  cbv zeta. rewrite <- List.app_assoc. simpl.
  destruct (success result); [reflexivity|].
  destruct (attempt <? m - 1)%nat; [|reflexivity].
  destruct (_fix_query self query (error result) w2) as [fixed w3].
  reflexivity.
Qed.

Lemma Replays_app (w0 w1 w2 : World) (l1 l2 : list Event) :
  Replays self w0 l1 w1 -> Replays self w1 l2 w2 ->
  Replays self w0 (l1 ++ l2)%list w2.
Proof.
  intros H1 H2. induction H1; simpl;
    [exact H2 | constructor; auto | constructor; auto | constructor; auto].
Qed.

(** The log of the loop is the record of the calls it made: it replays
    from the world the log started in to the world the loop ends in. *)
Lemma attempts_loop_replays (m : nat) (question : string)
      (range : list nat) :
  forall w0 w log,
    Replays self w0 log w ->
    Replays self w0
            (snd (snd (attempts_loop self m question range (w, log))))
            (fst (snd (attempts_loop self m question range (w, log)))).
Proof.
  induction range as [|attempt rest IH]; intros w0 w log H.
  - exact H.
  - rewrite attempts_loop_round.
    assert (H2 : Replays self w0
                   (log ++ [Generated question
                              (fst (_generate_query self question w));
                            Executed
                              (fst (_generate_query self question w))
                              (fst (_execute_query self
                                      (fst (_generate_query self question w))
                                      (snd (_generate_query self question w))))])%list
                   (snd (_execute_query self
                           (fst (_generate_query self question w))
                           (snd (_generate_query self question w))))).
    { apply (Replays_app _ _ _ _ _ H). do 2 constructor. constructor. }
    destruct (_generate_query self question w) as [query w1].
    destruct (_execute_query self query w1) as [result w2] eqn:Ee.
    cbn [fst snd] in H2. rewrite Ee in H2. cbn [fst snd] in H2. cbv zeta.
    destruct (success result); [exact H2|].
    destruct (attempt <? m - 1)%nat; [|exact H2].
    destruct (_fix_query self query (error result) w2) as [fixed w3] eqn:Ef.
    apply IH. apply (Replays_app _ _ _ _ _ H2).
    replace fixed with (fst (_fix_query self query (error result) w2))
      by now rewrite Ef.
    replace w3 with (snd (_fix_query self query (error result) w2))
      by now rewrite Ef.
    constructor. constructor.
Qed.


(** When every execution fails, the rounds still to come are all run: each
    executes once, each but the last asks for a correction, and the last
    one ends on the unbound name. *)
Lemma attempts_loop_all_fail (Hfail : always_fails self)
      (m : nat) (question : string) (n : nat) :
  forall i w log, i + S n = m ->
    exists w' log',
      attempts_loop self m question (seq i (S n)) (w, log)
      = (Raised (NameError "attempts"), (w', (log ++ log')%list))
      /\ executions log' = S n /\ corrections log' = n.
Proof.
  induction n as [|n IH]; intros i w log Hm.
  - change (seq i 1) with [i]. rewrite attempts_loop_round.
    pose proof (Hfail) as Hf. unfold always_fails in Hf.
    destruct (_generate_query self question w) as [query w1].
    specialize (Hf query w1).
    destruct (_execute_query self query w1) as [result w2].
    simpl in Hf. cbv zeta. rewrite Hf.
    replace (i <? m - 1)%nat with false
      by (symmetry; apply Nat.ltb_ge; lia).
    exists w2, [Generated question query; Executed query result].
    split; [reflexivity | split; reflexivity].
  - change (seq i (S (S n))) with (i :: seq (S i) (S n)).
    rewrite attempts_loop_round.
    pose proof (Hfail) as Hf. unfold always_fails in Hf.
    destruct (_generate_query self question w) as [query w1].
    specialize (Hf query w1).
    destruct (_execute_query self query w1) as [result w2].
    simpl in Hf. cbv zeta. rewrite Hf.
    replace (i <? m - 1)%nat with true
      by (symmetry; apply Nat.ltb_lt; lia).
    destruct (_fix_query self query (error result) w2) as [fixed w3].
    destruct (IH (S i) w3
                 ((log ++ [Generated question query; Executed query result])
                    ++ [Fixed query (error result) fixed])%list)
      as [w' [log' [E [He Hc]]]]; [lia|].
    exists w', ([Generated question query; Executed query result;
                 Fixed query (error result) fixed] ++ log')%list.
    split; [|split].
    + rewrite E. rewrite <- !List.app_assoc. reflexivity.
    + rewrite executions_app, He. reflexivity.
    + rewrite corrections_app, Hc. reflexivity.
Qed.


(** In a run over a whole range, a failed execution is followed at once by
    a call of the corrector on the failed query and its error, unless it is
    the last execution the range allows. *)
Lemma attempts_loop_failures (m : nat) (question : string) (n : nat) :
  forall i w log, i + S n = m ->
    exists log',
      snd (snd (attempts_loop self m question (seq i (S n)) (w, log)))
      = (log ++ log')%list
      /\ forall pre query result post,
          log' = (pre ++ Executed query result :: post)%list ->
          success result = false ->
          (exists fixed post',
              post = Fixed query (error result) fixed :: post')
          \/ (post = [] /\ executions log' = S n).
Proof.
  induction n as [|n IH]; intros i w log Hm.
  - change (seq i 1) with [i]. rewrite attempts_loop_round.
    destruct (_generate_query self question w) as [query w1].
    destruct (_execute_query self query w1) as [result w2].
    cbv zeta.
    replace (i <? m - 1)%nat with false
      by (symmetry; apply Nat.ltb_ge; lia).
    destruct (success result) eqn:Hs;
      exists [Generated question query; Executed query result];
      (split; [reflexivity|]); intros pre q r post H Hr;
      destruct pre as [|e1 [|e2 pre]]; simpl in H; try discriminate H.
    + injection H as _ <- <- <-. congruence.
    + injection H as _ _ H. now destruct pre.
    + injection H as _ <- <- <-. right. split; reflexivity.
    + injection H as _ _ H. now destruct pre.
  - change (seq i (S (S n))) with (i :: seq (S i) (S n)).
    rewrite attempts_loop_round.
    destruct (_generate_query self question w) as [query w1].
    destruct (_execute_query self query w1) as [result w2].
    cbv zeta.
    replace (i <? m - 1)%nat with true
      by (symmetry; apply Nat.ltb_lt; lia).
    destruct (success result) eqn:Hs.
    + exists [Generated question query; Executed query result].
      split; [reflexivity|]. intros pre q r post H Hr.
      destruct pre as [|e1 [|e2 pre]]; simpl in H; try discriminate H.
      * injection H as _ <- <- <-. congruence.
      * injection H as _ _ H. now destruct pre.
    + destruct (_fix_query self query (error result) w2) as [fixed w3].
      destruct (IH (S i) w3
                   ((log ++ [Generated question query; Executed query result])
                      ++ [Fixed query (error result) fixed])%list)
        as [log' [E HP]]; [lia|].
      exists ([Generated question query; Executed query result;
               Fixed query (error result) fixed] ++ log')%list.
      split; [rewrite E; rewrite <- !List.app_assoc; reflexivity|].
      intros pre q r post H Hr.
      destruct pre as [|e1 [|e2 [|e3 pre]]]; simpl in H; try discriminate H.
      * injection H as _ <- <- <-. left. now exists fixed, log'.
      * injection H as _ _ _ H.
        destruct (HP pre q r post H Hr) as [Hfix | [-> Hn]].
        -- left. exact Hfix.
        -- right. split; [reflexivity|].
           rewrite executions_app, Hn. reflexivity.
Qed.

(** Every correction in the log is an answer of the corrector. *)
Lemma attempts_loop_corrections (m : nat) (question : string)
      (range : list nat) :
  forall w log failed err corrected,
    In (Fixed failed err corrected)
       (snd (snd (attempts_loop self m question range (w, log)))) ->
    In (Fixed failed err corrected) log
    \/ exists w0, corrected = fst (_fix_query self failed err w0).
Proof.
  induction range as [|attempt rest IH]; intros w log failed err corrected.
  - simpl. now left.
  - rewrite attempts_loop_round.
    destruct (_generate_query self question w) as [query w1].
    destruct (_execute_query self query w1) as [result w2].
    cbv zeta.
    assert (Hsame : In (Fixed failed err corrected)
                       (log ++ [Generated question query;
                                Executed query result])%list ->
                    In (Fixed failed err corrected) log).
    { intros H. apply in_app_or in H. destruct H as [H | H]; [exact H|].
      simpl in H. destruct H as [H | [H | []]]; discriminate H. }
    destruct (success result); [intros H; left; now apply Hsame|].
    destruct (attempt <? m - 1)%nat; [|intros H; left; now apply Hsame].
    destruct (_fix_query self query (error result) w2) as [fixed w3] eqn:Ef.
    intros H. apply IH in H. destruct H as [H | H]; [|now right].
    apply in_app_or in H. destruct H as [H | H]; [left; now apply Hsame|].
    simpl in H. destruct H as [H | []]. injection H as <- <- <-.
    right. exists w2. now rewrite Ef.
Qed.

(** The log of a run is the record of the calls the run made. *)
Lemma run_replays (question : string) (w : World) :
  Replays self w (snd (snd (run self question w)))
          (fst (snd (run self question w))).
Proof. apply attempts_loop_replays. constructor. Qed.

(** Claim C1, on the code.  When every execution of the backend fails, a
    run of [answer_with_self_correction] calls the backend exactly
    [max_attempts] times, which is three, the first attempt included (the
    log, which counts three executions, is the record of the calls made),
    and then, instead of returning DONE(exhausted), it raises the name
    error of the unbound name [attempts]. *)
Theorem exhausted_run_raises_name_error
        (Hfail : always_fails self) (question : string) (w : World) :
  exists w' log,
    run self question w = (Raised (NameError "attempts"), (w', log))
    /\ executions log = max_attempts
    /\ max_attempts = 3
    /\ Replays self w log w'
    /\ fst (run self question w) <> Returned ErrorResponse.
Proof.
  destruct (attempts_loop_all_fail Hfail max_attempts question 2 0 w [])
    as [w' [log' [E [He _]]]]; [reflexivity|].
  pose proof (run_replays question w) as Hr.
  unfold run, answer_with_self_correction in *.
  change (seq 0 max_attempts) with (seq 0 3) in *.
  rewrite E in Hr |- *. simpl in Hr.
  exists w', log'.
  split; [reflexivity | split; [exact He | split; [reflexivity|]]].
  split; [exact Hr | discriminate].
Qed.

(** Claim C3, as amended.  A corrector that hands back the failed query
    unchanged is not detected: when every execution fails, the run asks it
    after each failure but the last, gets the failed query back each time,
    and still goes through all [max_attempts] executions, the log being the
    record of the calls made. *)
Theorem noop_repair_runs_every_attempt
        (Hnoop : noop_corrector self) (Hfail : always_fails self)
        (question : string) (w : World) :
  exists outcome w' log,
    run self question w = (outcome, (w', log))
    /\ executions log = max_attempts
    /\ corrections log = max_attempts - 1
    /\ (forall failed err corrected,
          In (Fixed failed err corrected) log -> corrected = failed)
    /\ Replays self w log w'.
Proof.
  destruct (attempts_loop_all_fail Hfail max_attempts question 2 0 w [])
    as [w' [log [E [He Hc]]]]; [reflexivity|].
  pose proof (run_replays question w) as Hr.
  pose proof (attempts_loop_corrections max_attempts question
                (seq 0 3) w []) as H.
  unfold run, answer_with_self_correction in *.
  change (seq 0 max_attempts) with (seq 0 3) in *.
  rewrite E in Hr, H |- *. simpl in Hr, H.
  exists (Raised (NameError "attempts")), w', log.
  split; [reflexivity | split; [exact He | split; [exact Hc|]]].
  split; [|exact Hr].
  intros failed err corrected Hin.
  destruct (H failed err corrected Hin) as [[] | [w0 ->]]. apply Hnoop.
Qed.

(** Claim C5, as amended.  Whatever the kind of its error, connection and
    permission included, a failed execution is followed at once by a call
    of the corrector on the failed query and its error; the one exception
    is the failure of the last of the [max_attempts] executions, after
    which no collaborator is called any more.  The log is the record of
    the calls made. *)
Theorem correction_follows_failure_of_any_kind
        (question : string) (w : World) :
  exists outcome w' log,
    run self question w = (outcome, (w', log))
    /\ Replays self w log w'
    /\ forall pre query result post,
        log = (pre ++ Executed query result :: post)%list ->
        success result = false ->
        (exists fixed post',
            post = Fixed query (error result) fixed :: post')
        \/ (post = [] /\ executions log = max_attempts).
Proof.
  destruct (attempts_loop_failures max_attempts question 2 0 w [])
    as [log [E H]]; [reflexivity|].
  pose proof (run_replays question w) as Hr.
  unfold run, answer_with_self_correction in *.
  change (seq 0 max_attempts) with (seq 0 3) in *.
  destruct (attempts_loop self max_attempts question (seq 0 3) (w, []))
    as [outcome [w' log0]].
  simpl in E, Hr. subst log0. now exists outcome, w', log.
Qed.

End OrchestratorFacts.

Section CachedRunFacts.
Import Orchestrator CachedRun.
Context {World Entry : Type}.
Variable similarity : string -> string -> Q.
Variable cached_query : Entry -> string.


End CachedRunFacts.

Section OrchestratorClosed.
Import Orchestrator Fixture.

Lemma exhausted_run_raises_name_error_witness :
  exists w' log,
    run (rejecting syntax bad_query (fun _ => good_query)) the_question tt
    = (Raised (NameError "attempts"), (w', log))
    /\ executions log = max_attempts
    /\ max_attempts = 3
    /\ Replays (rejecting syntax bad_query (fun _ => good_query)) tt log w'
    /\ fst (run (rejecting syntax bad_query (fun _ => good_query))
                the_question tt) <> Returned ErrorResponse.
Proof.
  apply (exhausted_run_raises_name_error
           (rejecting syntax bad_query (fun _ => good_query))).
  intros query w. reflexivity.
Defined.


Lemma noop_repair_runs_every_attempt_witness :
  exists outcome w' log,
    run (rejecting syntax bad_query (fun q => q)) the_question tt
    = (outcome, (w', log))
    /\ executions log = max_attempts
    /\ corrections log = max_attempts - 1
    /\ (forall failed err corrected,
          In (Fixed failed err corrected) log -> corrected = failed)
    /\ Replays (rejecting syntax bad_query (fun q => q)) tt log w'.
Proof.
  apply (noop_repair_runs_every_attempt
           (rejecting syntax bad_query (fun q => q))).
  - intros query err w. reflexivity.
  - intros query w. reflexivity.
Defined.

(** Claim C3, as stated, fails: the corrector returns the failed query
    unchanged, and the run neither stops early nor avoids the unchanged
    query; it executes it three times, with two calls of the corrector in
    between. *)
Lemma noop_repair_counterexample :
  let self := rejecting syntax bad_query (fun q => q) in
  noop_corrector self
  /\ exists outcome w' log,
      run self the_question tt = (outcome, (w', log))
      /\ ~ executions log < max_attempts
      /\ corrections log = 2
      /\ executed_queries log = [bad_query; bad_query; bad_query].
Proof.
  split; [intros query err w; reflexivity|].
  eexists. eexists. eexists. split; [reflexivity|].
  split; [vm_compute; lia | split; reflexivity].
Qed.

Lemma correction_follows_failure_of_any_kind_witness :
  let err := {| kind := permission; message := "Invalid column name 'Rev'" |} in
  let failed := failure permission "Invalid column name 'Rev'" in
  let later :=
    [Generated the_question bad_query; Executed bad_query failed;
     Fixed bad_query err good_query;
     Generated the_question bad_query; Executed bad_query failed] in
  (exists fixed post',
      Fixed bad_query err good_query :: later
      = Fixed bad_query err fixed :: post')
  \/ (Fixed bad_query err good_query :: later = []
      /\ executions
           (Generated the_question bad_query :: Executed bad_query failed
              :: Fixed bad_query err good_query :: later) = max_attempts).
Proof.
  destruct (correction_follows_failure_of_any_kind
              (rejecting permission bad_query (fun _ => good_query))
              the_question tt)
    as [outcome [w' [log [E [_ H]]]]].
  vm_compute in E. injection E as <- <- <-.
  exact (H [Generated the_question bad_query] bad_query
           (failure permission "Invalid column name 'Rev'") _
           eq_refl eq_refl).
Defined.

(** Claim C5, as stated, fails: every execution fails with an error of
    kind connection, and the corrector is called twice all the same, the
    backend being asked three times. *)
Lemma connection_error_counterexample :
  let self := rejecting connection bad_query (fun _ => good_query) in
  (forall query w,
      environmental (kind (error (fst (_execute_query self query w)))) = true)
  /\ exists outcome w' log,
      run self the_question tt = (outcome, (w', log))
      /\ corrections log = 2
      /\ executions log = 3.
Proof.
  split; [intros query w; reflexivity|].
  eexists. eexists. eexists. split; [reflexivity|]. split; reflexivity.
Qed.

(** The one-correction scenario: the first execution fails, the corrector
    is asked, the second execution succeeds.  The second round executes the
    query the generator writes again, not the corrected one. *)
Example one_correction :
  run (failing_once bad_query (fun _ => good_query)) the_question 0
  = (Returned (SuccessResponse two_rows),
     (2, [Generated the_question bad_query;
          Executed bad_query (failure syntax "Invalid column name 'Rev'");
          Fixed bad_query
                {| kind := syntax; message := "Invalid column name 'Rev'" |}
                good_query;
          Generated the_question bad_query;
          Executed bad_query two_rows])).
Proof. reflexivity. Qed.

(** The happy path: one attempt. *)
Example happy_path :
  run (answering good_query) the_question tt
  = (Returned (SuccessResponse two_rows),
     (tt, [Generated the_question good_query;
           Executed good_query two_rows])).
Proof. reflexivity. Qed.

(** Three failures on a backend that counts its calls: the backend has been
    called three times when the name error is raised. *)
Example exhaustion_on_a_counting_backend :
  run (counting bad_query) the_question 0
  = (Raised (NameError "attempts"),
     (3, [Generated the_question bad_query;
          Executed bad_query (failure syntax "Invalid column name 'Rev'");
          Fixed bad_query
                {| kind := syntax; message := "Invalid column name 'Rev'" |}
                good_query;
          Generated the_question bad_query;
          Executed bad_query (failure syntax "Invalid column name 'Rev'");
          Fixed bad_query
                {| kind := syntax; message := "Invalid column name 'Rev'" |}
                good_query;
          Generated the_question bad_query;
          Executed bad_query (failure syntax "Invalid column name 'Rev'")])).
Proof. reflexivity. Qed.

End OrchestratorClosed.

(** ** The similarity cache *)

Section CacheFacts.
Import Cache.
Context {Result : Type} (similarity : string -> string -> Q).

Lemma greater_lt (s t : Q) : greater s t = true <-> (t < s)%Q.
Proof.
  unfold greater. rewrite negb_true_iff. split.
  - intros H. apply Qnot_le_lt. intros Hle.
    apply Qle_bool_iff in Hle. congruence.
  - intros H. apply not_true_is_false. intros Hle.
    apply Qle_bool_iff in Hle. exact (Qlt_not_le _ _ H Hle).
Qed.

(** Claim C6, as amended.  The lookup reports a hit exactly when some
    stored question has a similarity to the incoming one that is strictly
    greater than the threshold 0.8; when no stored question is strictly
    above it, a similarity equal to 0.8 included, the lookup misses. *)
Theorem hit_iff_similarity_above_threshold
        (query_cache : list (string * Result)) (question : string) :
  similarity_threshold = (8 # 10)%Q
  /\ ((exists result,
          get_similar_query similarity query_cache question = Some result)
      <-> exists cached_q result,
            In (cached_q, result) query_cache
            /\ (similarity_threshold < similarity question cached_q)%Q)
  /\ ((forall cached_q result,
          In (cached_q, result) query_cache ->
          (similarity question cached_q <= similarity_threshold)%Q) ->
      get_similar_query similarity query_cache question = None).
Proof.
  split; [reflexivity|].
  assert (Hiff : (exists result,
                     get_similar_query similarity query_cache question
                     = Some result)
                 <-> exists cached_q result,
                       In (cached_q, result) query_cache
                       /\ (similarity_threshold
                           < similarity question cached_q)%Q).
  { induction query_cache as [|[cached_q result] rest IH]; simpl.
    - split; [intros [r H]; discriminate H | intros [c [r [[] _]]]].
    - destruct (greater (similarity question cached_q) similarity_threshold)
        eqn:Hg.
      + split; [|intros _; now exists result].
        intros _. exists cached_q, result.
        split; [now left | now apply greater_lt].
      + rewrite IH. split.
        * intros [c [r [Hin Hlt]]]. exists c, r. split; [now right | exact Hlt].
        * intros [c [r [[Heq | Hin] Hlt]]].
          -- injection Heq as <- <-. apply greater_lt in Hlt. congruence.
          -- now exists c, r. }
  split; [exact Hiff|].
  intros Hall.
  destruct (get_similar_query similarity query_cache question) as [r|] eqn:E;
    [|reflexivity].
  destruct (proj1 Hiff (ex_intro _ r eq_refl)) as [c [r' [Hin Hlt]]].
  exfalso. exact (Qlt_not_le _ _ Hlt (Hall c r' Hin)).
Qed.

End CacheFacts.

Section CacheClosed.
Import Cache.

Lemma hit_iff_similarity_above_threshold_witness :
  get_similar_query (fun _ _ => (8 # 10)%Q)
                    [("top customers by revenue", "SELECT 1");
                     ("sales by month", "SELECT 2")]
                    "top customers by revenue" = None.
Proof.
  apply (proj2 (proj2 (hit_iff_similarity_above_threshold
                         (fun _ _ => (8 # 10)%Q) _ _))).
  intros cached_q result _. vm_compute. discriminate.
Defined.

(** Claim C6, as stated, fails: the stored question has a similarity of
    exactly 0.8 to the incoming one, which is at the threshold, and the
    lookup misses. *)
Lemma similarity_at_threshold_counterexample :
  let similarity := fun _ _ : string => (8 # 10)%Q in
  let question := "top customers by revenue" in
  (similarity_threshold <= similarity question question)%Q
  /\ similarity question question = similarity_threshold
  /\ get_similar_query similarity [(question, "SELECT 1")] question = None.
Proof.
  split; [vm_compute; discriminate | split; reflexivity].
Qed.

End CacheClosed.

(** ** Query execution with a row limit *)

Section ExecutorFacts.
Import Executor.

(** Claim C7.  For every executed query the executor hands back no more
    rows than its row cap, whose default value is 1000, whatever limit the
    call asks for; it reports the number of rows the query produced as the
    total, which is never less than the number returned and exceeds it as
    soon as the query produces more rows than the cap. *)
Theorem row_cap_bounds_returned_rows
        (row_cap : nat) (backend : string -> list Js.row)
        (query : string) (limit : option nat) :
  let response := execute_query_capped row_cap backend query limit in
  default_row_cap = 1000
  /\ execute_query = execute_query_capped 1000
  /\ List.length (data response) <= row_cap
  /\ row_count response = List.length (data response)
  /\ total_rows response = List.length (backend query)
  /\ row_count response <= total_rows response
  /\ (row_cap < total_rows response ->
      row_count response < total_rows response).
Proof.
  unfold execute_query_capped.
  cbn [data row_count total_rows]. rewrite length_firstn.
  split; [reflexivity | split; [reflexivity|]].
  split; [lia | split; [reflexivity | split; [reflexivity|]]].
  split; [lia | intros H; lia].
Qed.

Lemma row_cap_bounds_returned_rows_witness :
  row_count (execute_query_capped 1000
               (fun _ => repeat [("Customer", Js.Str "Acme Corp")] 1500)
               "SELECT Customer FROM Sales" (Some 5000))
  < total_rows (execute_query_capped 1000
                  (fun _ => repeat [("Customer", Js.Str "Acme Corp")] 1500)
                  "SELECT Customer FROM Sales" (Some 5000)).
Proof.
  apply (proj2 (proj2 (proj2 (proj2 (proj2 (proj2
           (row_cap_bounds_returned_rows 1000
              (fun _ => repeat [("Customer", Js.Str "Acme Corp")] 1500)
              "SELECT Customer FROM Sales" (Some 5000)))))))).
  vm_compute. lia.
Defined.

(** With the defaults: of 1500 rows produced, a call that asks for 5000
    gets 1000 and a call that names no limit gets 100. *)
Example execute_query_defaults :
  let backend := fun _ : string =>
                   repeat [("Customer", Js.Str "Acme Corp")] 1500 in
  row_count (execute_query backend "SELECT Customer FROM Sales" (Some 5000))
  = 1000
  /\ row_count (execute_query backend "SELECT Customer FROM Sales" None) = 100
  /\ total_rows (execute_query backend "SELECT Customer FROM Sales" None)
     = 1500.
Proof. vm_compute. repeat split. Qed.

End ExecutorFacts.

(** ** The conversation context of the chat front end *)

Section ChatFacts.
Import Chat.

Lemma slice_last_length (n : nat) (l : list string) :
  List.length (slice_last n l) = Nat.min n (List.length l).
Proof. unfold slice_last. rewrite length_skipn. lia. Qed.

Lemma slice_last_all (n : nat) (l : list string) :
  List.length l <= n -> slice_last n l = l.
Proof.
  intros H. unfold slice_last.
  replace (List.length l - n) with 0 by lia. reflexivity.
Qed.

Lemma slice_last_snoc (n : nat) (l : list string) (e : string) :
  slice_last (S n) (l ++ [e])%list = (slice_last n l ++ [e])%list.
Proof.
  unfold slice_last. rewrite length_app. simpl List.length.
  replace (List.length l + 1 - S n) with (List.length l - n) by lia.
  rewrite skipn_app.
  replace (List.length l - n - List.length l) with 0 by lia.
  reflexivity.
Qed.

Lemma slice_last_slice_last (n m : nat) (l : list string) :
  n <= m -> slice_last n (slice_last m l) = slice_last n l.
Proof.
  intros H. unfold slice_last. rewrite length_skipn, skipn_skipn.
  f_equal. lia.
Qed.

Lemma push_length (prev : list string) (entry : string) :
  List.length (push prev entry) = S (Nat.min 2 (List.length prev)).
Proof.
  unfold push. rewrite length_app, slice_last_length. simpl. lia.
Qed.

(** Pushing onto the last [K] of a sequence gives the last [K] of the
    sequence with the entry added. *)
Lemma push_slice_last (l : list string) (entry : string) :
  push (slice_last K l) entry = slice_last K (l ++ [entry])%list.
Proof.
  unfold push, K. change (2 + 1) with 3.
  rewrite slice_last_snoc, slice_last_slice_last by lia. reflexivity.
Qed.

Lemma fold_push_slice_last (entries seen : list string) :
  fold_left push entries (slice_last K seen)
  = slice_last K (seen ++ entries)%list.
Proof.
  revert seen. induction entries as [|e entries IH]; intros seen; simpl.
  - now rewrite List.app_nil_r.
  - rewrite push_slice_last, IH, <- List.app_assoc. reflexivity.
Qed.

Lemma step_capacity (st : State) (a : Action) :
  List.length (conversationContext st) <= K ->
  List.length (conversationContext (step st a)) <= K.
Proof.
  intros H. destruct a as [messageText post | text |]; simpl.
  - unfold sendMessage. destruct (ignored st messageText); [exact H|].
    simpl. destruct (appended_entry st messageText post); [|exact H].
    rewrite push_length. unfold K. lia.
  - exact H.
  - apply Nat.le_0_l.
Qed.

Lemma fold_step_capacity (actions : list Action) :
  forall st, List.length (conversationContext st) <= K ->
             List.length (conversationContext (fold_left step actions st))
             <= K.
Proof.
  induction actions as [|a actions IH]; intros st H; simpl.
  - exact H.
  - apply IH, step_capacity, H.
Qed.

Lemma not_blank_nonempty (s : string) :
  Js.blank s = false -> exists c s', s = String c s'.
Proof. destruct s as [|c s']; [discriminate | now exists c, s']. Qed.

Lemma successful_turn_pushes (st : State) (turn : string * Result) :
  loading st = false -> successful turn ->
  loading (step st (send_turn turn)) = false
  /\ conversationContext (step st (send_turn turn))
     = push (conversationContext st) (entry_of turn).
Proof.
  intros Hl [Hb [Hs Hq]]. destruct turn as [question result]. simpl in *.
  destruct (not_blank_nonempty _ Hb) as [c [s' ->]].
  unfold sendMessage, appended_entry, ignored. simpl.
  simpl in Hb. rewrite Hb, Hl, Hs, Hq. simpl. split; reflexivity.
Qed.

Lemma successful_turns_fold (turns : list (string * Result)) :
  Forall successful turns ->
  forall st, loading st = false ->
    conversationContext (fold_left step (map send_turn turns) st)
    = fold_left push (map entry_of turns) (conversationContext st).
Proof.
  induction 1 as [|turn turns Hturn _ IH]; intros st Hl;
    cbn [map fold_left].
  - reflexivity.
  - destruct (successful_turn_pushes st turn Hl Hturn) as [Hl' Hc].
    rewrite IH by exact Hl'. now rewrite Hc.
Qed.

(** Claim C4.  Whatever happens to the component, the conversation context
    never holds more than [K] = 3 entries; pushing onto a full context
    drops exactly its first, oldest entry and puts the new one last; after
    any number of successful turns the context holds the last [K] entries
    in order, so that after [K + 1] of them [recent K] is the three most
    recent ones, the first turn's entry gone. *)
Theorem context_holds_last_K_entries :
  K = 3
  /\ (forall actions,
         List.length (conversationContext (run actions)) <= K)
  /\ (forall oldest second third entry,
         push [oldest; second; third] entry = [second; third; entry])
  /\ (forall turns,
         Forall successful turns ->
         conversationContext (run (map send_turn turns))
         = slice_last K (map entry_of turns))
  /\ (forall t1 t2 t3 t4,
         Forall successful [t1; t2; t3; t4] ->
         recent K (run (map send_turn [t1; t2; t3; t4]))
         = [entry_of t2; entry_of t3; entry_of t4]).
Proof.
  assert (Hturns : forall turns,
             Forall successful turns ->
             conversationContext (run (map send_turn turns))
             = slice_last K (map entry_of turns)).
  { intros turns H. unfold run.
    rewrite (successful_turns_fold turns H initial eq_refl).
    exact (fold_push_slice_last (map entry_of turns) []). }
  split; [reflexivity | split; [|split; [|split]]].
  - intros actions. apply fold_step_capacity. apply Nat.le_0_l.
  - reflexivity.
  - exact Hturns.
  - intros t1 t2 t3 t4 H. unfold recent. rewrite (Hturns _ H).
    reflexivity.
Qed.

(** Claim C8.  In a turn, that is a call of [sendMessage] that is not
    ignored, an entry is appended to the conversation context if and only
    if the request resolved with a result whose [success] and [query] are
    both truthy (success is true and a final query is there); the entry is
    then the one built from the question and the result.  In every other
    turn, a failed result or a failed request, the context is unchanged. *)
Theorem context_appended_iff_success_with_query
        (st : State) (messageText : option string) (post : Post)
        (Hturn : ignored st messageText = false) :
  (forall entry,
      appended_entry st messageText post = Some entry
      <-> exists result,
            post = Resolved result
            /\ Js.truthy (success result) = true
            /\ Js.truthy (query result) = true
            /\ entry = contextEntry (question_of st messageText) result)
  /\ (forall entry,
        appended_entry st messageText post = Some entry ->
        conversationContext (sendMessage st messageText post)
        = (slice_last 2 (conversationContext st) ++ [entry])%list)
  /\ (appended_entry st messageText post = None ->
      conversationContext (sendMessage st messageText post)
      = conversationContext st).
Proof.
  unfold sendMessage, appended_entry. rewrite Hturn.
  split; [|split].
  - intros entry. destruct post as [result|].
    + destruct (Js.truthy (success result)) eqn:Hs;
        destruct (Js.truthy (query result)) eqn:Hq; simpl;
        (split;
         [ intros H; try discriminate H; injection H as <-;
           exists result; repeat split; assumption
         | intros [r [Hr [Hs' [Hq' He]]]]; injection Hr as <-;
           try congruence ]).
    + split; [discriminate | intros [r [Hr _]]; discriminate Hr].
  - intros entry H. simpl. rewrite H. reflexivity.
  - intros H. simpl. rewrite H. reflexivity.
Qed.

(** With the types the API document gives the two fields, a boolean and a
    string: appended exactly when the flag is true and the query is not
    empty. *)
Lemma appended_entry_typed (st : State) (messageText : option string)
      (b : bool) (q : string) (lang : Js.value) :
  ignored st messageText = false ->
  appended_entry st messageText
    (Resolved {| success := Js.Bool b; query := Js.Str q;
                 query_language := lang |}) <> None
  <-> b = true /\ q <> EmptyString.
Proof.
  intros Hturn. unfold appended_entry. rewrite Hturn. simpl.
  destruct b, q as [|c q]; simpl; split;
    try (intros H; now contradiction H);
    try (intros [H1 H2]; congruence);
    try (intros _; split; congruence);
    try discriminate.
Qed.

End ChatFacts.

Section ChatClosed.
Import Chat.

Lemma context_holds_last_K_entries_witness :
  let turn := fun question text : string =>
                (question,
                 {| success := Js.Bool true; query := Js.Str text;
                    query_language := Js.Str "T-SQL" |}) in
  let t1 := turn "total sales" "SELECT SUM(Amount) FROM Sales" in
  let t2 := turn "by region" "SELECT Region, SUM(Amount) FROM Sales" in
  let t3 := turn "last month" "SELECT SUM(Amount) FROM Sales WHERE M = 5" in
  let t4 := turn "top customer" "SELECT TOP 1 Customer FROM Sales" in
  recent K (run (map send_turn [t1; t2; t3; t4]))
  = [entry_of t2; entry_of t3; entry_of t4].
Proof.
  intros turn t1 t2 t3 t4.
  apply (proj2 (proj2 (proj2 (proj2 context_holds_last_K_entries)))).
  repeat constructor.
Defined.

Lemma context_appended_iff_success_with_query_witness :
  conversationContext
    (sendMessage
       {| input := "total sales by region"; loading := false;
          conversationContext := ["Q: total sales"] |}
       None
       (Resolved {| success := Js.Bool false; query := Js.Undefined;
                    query_language := Js.Undefined |}))
  = ["Q: total sales"].
Proof.
  apply (proj2 (proj2 (context_appended_iff_success_with_query
                         {| input := "total sales by region";
                            loading := false;
                            conversationContext := ["Q: total sales"] |}
                         None
                         (Resolved {| success := Js.Bool false;
                                      query := Js.Undefined;
                                      query_language := Js.Undefined |})
                         eq_refl))).
  reflexivity.
Defined.

Example sendMessage_appends :
  conversationContext
    (sendMessage initial (Some "total sales")
       (Resolved {| success := Js.Bool true;
                    query := Js.Str "SELECT SUM(Amount) FROM Sales";
                    query_language := Js.Undefined |}))
  = ["Q: total sales" ++ newline
       ++ "Query: SELECT SUM(Amount) FROM Sales"].
Proof. reflexivity. Qed.

End ChatClosed.

(** ** The result table and its CSV export *)

Section TableFacts.
Import Table.

Lemma falsy_cell_text (r : Js.row) (col : string) :
  Js.truthy (Js.get r col) = false -> cell_text r col = EmptyString.
Proof. unfold cell_text, Js.or. intros ->. reflexivity. Qed.

Lemma alike_cell_text (r1 r2 : Js.row) (col : string) :
  alike (Js.get r1 col) (Js.get r2 col) -> cell_text r1 col = cell_text r2 col.
Proof.
  intros [H | [H1 H2]].
  - unfold cell_text. now rewrite H.
  - now rewrite !falsy_cell_text.
Qed.

Lemma rows_alike_cells (columns : list string) (r1 r2 : Js.row) :
  rows_alike columns r1 r2 ->
  map (cell_text r1) columns = map (cell_text r2) columns.
Proof.
  intros H. apply map_ext_in. intros col Hin.
  apply alike_cell_text, H, Hin.
Qed.

Lemma rows_alike_csv_line (columns : list string) (r1 r2 : Js.row) :
  rows_alike columns r1 r2 -> csv_line columns r1 = csv_line columns r2.
Proof.
  intros H. unfold csv_line. f_equal. apply map_ext_in. intros col Hin.
  unfold csv_field. now rewrite (alike_cell_text r1 r2 col (H col Hin)).
Qed.

Lemma Forall2_map_eq {A B : Type} (R : A -> A -> Prop) (f : A -> B)
      (l1 l2 : list A) :
  (forall a b, R a b -> f a = f b) -> Forall2 R l1 l2 -> map f l1 = map f l2.
Proof.
  intros Hf H. induction H as [|a b l1 l2 Hab _ IH]; simpl.
  - reflexivity.
  - now rewrite (Hf a b Hab), IH.
Qed.

(** Claim C10.  A cell whose value is falsy, the number 0, false, null, the
    empty string, a missing property or NaN, has the empty string as its
    text, on screen and in the export, where the field is a pair of quotes
    with nothing between them; so two result sets that differ only in which
    falsy value a cell holds, a zero here and nothing there, give the same
    table rows and the same CSV file. *)
Theorem falsy_cells_render_empty :
  (forall v,
      In v [Js.Num 0; Js.Bool false; Js.Null; Js.Str EmptyString;
            Js.Undefined; Js.NaN] ->
      Js.truthy v = false)
  /\ (forall r col,
         Js.truthy (Js.get r col) = false ->
         cell_text r col = EmptyString
         /\ csv_field r col = quote ++ quote)
  /\ (forall columns data1 data2,
         Forall2 (rows_alike columns) data1 data2 ->
         csvContent columns data1 = csvContent columns data2
         /\ exportToCSV columns data1 = exportToCSV columns data2
         /\ exportToCSV_chat columns data1 = exportToCSV_chat columns data2
         /\ table_body columns data1 = table_body columns data2
         /\ forall index, Row columns data1 index = Row columns data2 index).
Proof.
  split; [|split].
  - intros v H. simpl in H.
    repeat (destruct H as [<- | H]; [reflexivity|]). destruct H.
  - intros r col H. unfold csv_field. rewrite (falsy_cell_text r col H).
    split; reflexivity.
  - intros columns data1 data2 H.
    assert (Hcsv : csvContent columns data1 = csvContent columns data2).
    { unfold csvContent. do 2 f_equal.
      apply (Forall2_map_eq (rows_alike columns)); [|exact H].
      apply rows_alike_csv_line. }
    assert (Hcells : map (fun r => map (cell_text r) columns) data1
                     = map (fun r => map (cell_text r) columns) data2).
    { apply (Forall2_map_eq (rows_alike columns)); [|exact H].
      apply rows_alike_cells. }
    split; [exact Hcsv | split; [|split; [exact Hcsv | split]]].
    + unfold exportToCSV. rewrite Hcsv. now destruct H.
    + unfold table_body. rewrite <- !firstn_map. now rewrite Hcells.
    + intros index. unfold Row.
      pose proof (f_equal (fun l => nth_error l index) Hcells) as E.
      simpl in E. rewrite !nth_error_map in E.
      destruct (nth_error data1 index), (nth_error data2 index);
        simpl in E; congruence.
Qed.

End TableFacts.

Section TableClosed.
Import Table.

Lemma falsy_cells_render_empty_witness :
  let columns := ["Region"; "Returns"] in
  let with_zero := [[("Region", Js.Str "West"); ("Returns", Js.Num 0)]] in
  let with_nothing := [[("Region", Js.Str "West")]] in
  csvContent columns with_zero = csvContent columns with_nothing
  /\ exportToCSV columns with_zero = exportToCSV columns with_nothing
  /\ exportToCSV_chat columns with_zero
     = exportToCSV_chat columns with_nothing
  /\ table_body columns with_zero = table_body columns with_nothing
  /\ forall index,
      Row columns with_zero index = Row columns with_nothing index.
Proof.
  intros columns with_zero with_nothing.
  apply (proj2 (proj2 falsy_cells_render_empty)).
  constructor; [|constructor].
  intros col [<- | [<- | []]]; [left | right; split]; reflexivity.
Defined.

Example csv_of_a_zero :
  csvContent ["Region"; "Returns"]
             [[("Region", Js.Str "West"); ("Returns", Js.Num 0)];
              [("Region", Js.Str "East"); ("Returns", Js.Num 12)]]
  = "Region,Returns" ++ newline
      ++ quote ++ "West" ++ quote ++ "," ++ quote ++ quote ++ newline
      ++ quote ++ "East" ++ quote ++ "," ++ quote ++ "12" ++ quote.
Proof. reflexivity. Qed.

End TableClosed.

(* ================================================================== *)
(** * Further properties of the code *)

(** ** The orchestrator: what every run does *)

Section OrchestratorRuns.
Import Orchestrator.
Context {World : Type} (self : Services World).

(** The backend only ever sees what the generator wrote in the round at
    hand. *)
Lemma attempts_loop_executes_generated (m : nat) (question : string)
      (range : list nat) :
  forall w log, exists log',
    snd (snd (attempts_loop self m question range (w, log)))
    = (log ++ log')%list
    /\ forall pre query result post,
        log' = (pre ++ Executed query result :: post)%list ->
        exists pre', pre = (pre' ++ [Generated question query])%list.
Proof.
  induction range as [|attempt rest IH]; intros w log.
  - exists []. split; [simpl; now rewrite List.app_nil_r|].
    intros pre q r post H. now destruct pre.
  - rewrite attempts_loop_round.
    destruct (_generate_query self question w) as [query w1].
    destruct (_execute_query self query w1) as [result w2].
    cbv zeta.
    assert (Hshort : forall pre q r post,
               [Generated question query; Executed query result]
               = (pre ++ Executed q r :: post)%list ->
               exists pre', pre = (pre' ++ [Generated question q])%list).
    { intros pre q r post H.
      destruct pre as [|e1 [|e2 pre]]; simpl in H; try discriminate H.
      - injection H as <- <- _ _. now exists [].
      - injection H as _ _ H. now destruct pre. }
    destruct (success result);
      [exists [Generated question query; Executed query result];
       split; [reflexivity | exact Hshort]|].
    destruct (attempt <? m - 1)%nat;
      [|exists [Generated question query; Executed query result];
        split; [reflexivity | exact Hshort]].
    destruct (_fix_query self query (error result) w2) as [fixed w3].
    destruct (IH w3 ((log ++ [Generated question query; Executed query result])
                       ++ [Fixed query (error result) fixed])%list)
      as [log' [E HP]].
    exists ([Generated question query; Executed query result;
             Fixed query (error result) fixed] ++ log')%list.
    split; [rewrite E; rewrite <- !List.app_assoc; reflexivity|].
    intros pre q r post H.
    destruct pre as [|e1 [|e2 [|e3 pre]]]; simpl in H; try discriminate H.
    + injection H as <- <- _ _. now exists [].
    + injection H as <- <- <- H.
      destruct (HP pre q r post H) as [pre' ->].
      exists ([Generated question query; Executed query result;
               Fixed query (error result) fixed] ++ pre')%list.
      now rewrite <- List.app_assoc.
Qed.

(** Every query the backend executes in a run is the one the generator
    wrote for the question immediately before: what the corrector returns
    is never executed. *)
Theorem only_generated_queries_are_executed
        (question : string) (w : World) :
  forall pre query result post,
    snd (snd (run self question w))
    = (pre ++ Executed query result :: post)%list ->
    exists pre', pre = (pre' ++ [Generated question query])%list.
Proof.
  destruct (attempts_loop_executes_generated max_attempts question
              (seq 0 max_attempts) w []) as [log' [E H]].
  intros pre query result post Hlog. apply (H pre query result post).
  unfold run, answer_with_self_correction in Hlog.
  rewrite E in Hlog. exact Hlog.
Qed.





End OrchestratorRuns.

(** ** More on strings *)

Section StrMore.
Import Str.

Lemma Substring_refl (s : string) : Substring s s.
Proof. exists EmptyString, EmptyString. simpl. now rewrite app_empty_r. Qed.

Lemma Substring_trans (a b c : string) :
  Substring a b -> Substring b c -> Substring a c.
Proof.
  intros [p1 [q1 ->]] [p2 [q2 ->]]. exists (p2 ++ p1), (q1 ++ q2).
  now rewrite !app_assoc.
Qed.

Lemma Substring_app (a pre s post : string) :
  Substring a s -> Substring a (pre ++ s ++ post).
Proof.
  intros H. apply (Substring_trans a s); [exact H|]. now exists pre, post.
Qed.

Lemma lower_app (a b : string) : lower (a ++ b) = lower a ++ lower b.
Proof. induction a as [|x a IH]; simpl; [reflexivity | now rewrite IH]. Qed.

Lemma Substring_lower (a b : string) :
  Substring a b -> Substring (lower a) (lower b).
Proof.
  intros [p [q ->]]. exists (lower p), (lower q). now rewrite !lower_app.
Qed.

Lemma Substring_upper (a b : string) :
  Substring a b -> Substring (upper a) (upper b).
Proof.
  intros [p [q ->]]. exists (upper p), (upper q). now rewrite !upper_app.
Qed.

Lemma upper_lower_char (c : ascii) : upper_char (lower_char c) = upper_char c.
Proof. destruct c as [[] [] [] [] [] [] [] []]; reflexivity. Qed.

Lemma upper_upper_char (c : ascii) : upper_char (upper_char c) = upper_char c.
Proof. destruct c as [[] [] [] [] [] [] [] []]; reflexivity. Qed.

Lemma lower_upper_char (c : ascii) : lower_char (upper_char c) = lower_char c.
Proof. destruct c as [[] [] [] [] [] [] [] []]; reflexivity. Qed.

Lemma lower_lower_char (c : ascii) : lower_char (lower_char c) = lower_char c.
Proof. destruct c as [[] [] [] [] [] [] [] []]; reflexivity. Qed.

Lemma isspace_lower_char (c : ascii) : isspace (lower_char c) = isspace c.
Proof. destruct c as [[] [] [] [] [] [] [] []]; reflexivity. Qed.

Lemma isspace_upper_char (c : ascii) : isspace (upper_char c) = isspace c.
Proof. destruct c as [[] [] [] [] [] [] [] []]; reflexivity. Qed.

Lemma upper_lower (s : string) : upper (lower s) = upper s.
Proof.
  induction s as [|c s IH]; simpl; [reflexivity|].
  now rewrite upper_lower_char, IH.
Qed.

Lemma upper_upper (s : string) : upper (upper s) = upper s.
Proof.
  induction s as [|c s IH]; simpl; [reflexivity|].
  now rewrite upper_upper_char, IH.
Qed.

Lemma lower_upper (s : string) : lower (upper s) = lower s.
Proof.
  induction s as [|c s IH]; simpl; [reflexivity|].
  now rewrite lower_upper_char, IH.
Qed.

Lemma lower_lower (s : string) : lower (lower s) = lower s.
Proof.
  induction s as [|c s IH]; simpl; [reflexivity|].
  now rewrite lower_lower_char, IH.
Qed.

Lemma lstrip_lower (s : string) : lstrip (lower s) = lower (lstrip s).
Proof.
  induction s as [|c s IH]; simpl; [reflexivity|].
  rewrite isspace_lower_char. now destruct (isspace c).
Qed.

Lemma rstrip_lower (s : string) : rstrip (lower s) = lower (rstrip s).
Proof.
  induction s as [|c s IH]; simpl; [reflexivity|].
  rewrite IH, isspace_lower_char.
  destruct (rstrip s); simpl; [now destruct (isspace c) | reflexivity].
Qed.

Lemma lstrip_upper (s : string) : lstrip (upper s) = upper (lstrip s).
Proof.
  induction s as [|c s IH]; simpl; [reflexivity|].
  rewrite isspace_upper_char. now destruct (isspace c).
Qed.

Lemma rstrip_upper (s : string) : rstrip (upper s) = upper (rstrip s).
Proof.
  induction s as [|c s IH]; simpl; [reflexivity|].
  rewrite IH, isspace_upper_char.
  destruct (rstrip s); simpl; [now destruct (isspace c) | reflexivity].
Qed.

Lemma lstrip_all_space (ws : string) :
  all_space ws = true -> lstrip ws = EmptyString.
Proof.
  induction ws as [|c ws IH]; simpl; [reflexivity|].
  intros H. apply andb_true_iff in H. destruct H as [-> H]. now apply IH.
Qed.

Lemma rstrip_all_space (ws : string) :
  all_space ws = true -> rstrip ws = EmptyString.
Proof.
  induction ws as [|c ws IH]; simpl; [reflexivity|].
  intros H. apply andb_true_iff in H. destruct H as [Hc H].
  now rewrite (IH H), Hc.
Qed.

Lemma lstrip_space_app (ws s : string) :
  all_space ws = true -> lstrip (ws ++ s) = lstrip s.
Proof.
  induction ws as [|c ws IH]; simpl; [reflexivity|].
  intros H. apply andb_true_iff in H. destruct H as [-> H]. now apply IH.
Qed.

Lemma rstrip_app_space (s ws : string) :
  all_space ws = true -> rstrip (s ++ ws) = rstrip s.
Proof.
  intros H. induction s as [|c s IH]; simpl.
  - now apply rstrip_all_space.
  - now rewrite IH.
Qed.

Lemma lstrip_app (s t : string) :
  lstrip (s ++ t) = if all_space s then lstrip t else lstrip s ++ t.
Proof.
  induction s as [|c s IH]; simpl; [reflexivity|].
  destruct (isspace c); simpl; [exact IH | reflexivity].
Qed.

(** Whitespace around a text does not change what [strip] returns. *)
Lemma strip_surrounded (ws1 s ws2 : string) :
  all_space ws1 = true -> all_space ws2 = true ->
  strip (ws1 ++ s ++ ws2) = strip s.
Proof.
  intros H1 H2. unfold strip. rewrite (lstrip_space_app _ _ H1), lstrip_app.
  destruct (all_space s) eqn:Hs.
  - now rewrite (lstrip_all_space _ H2), (lstrip_all_space _ Hs).
  - now apply rstrip_app_space.
Qed.

End StrMore.

(** ** More on query validation *)

Section ValidateMore.
Import Str Validate.

(** The verdict of [validate_query] does not depend on the case of the
    query text, for a query of either type: the query written in lower
    case or in upper case gets the verdict of the query as written. *)
Theorem validate_query_ignores_case (query query_type : string) :
  validate_query (lower query) query_type = validate_query query query_type
  /\ validate_query (upper query) query_type
     = validate_query query query_type.
Proof.
  unfold validate_query, strip.
  rewrite upper_lower, upper_upper.
  rewrite lstrip_lower, rstrip_lower, upper_lower.
  rewrite lstrip_upper, rstrip_upper, upper_upper.
  split; reflexivity.
Qed.

(** A query of type sql that is rejected stays rejected whatever text is
    put before or after it. *)
Theorem rejected_sql_stays_rejected (query before after : string) :
  validate_query query "sql" = Some false ->
  validate_query (before ++ query ++ after) "sql" = Some false.
Proof.
  unfold validate_query. simpl String.eqb. cbv iota.
  intros H. injection H as H. f_equal.
  apply negb_false_iff in H. apply negb_false_iff.
  apply dangerous_keyword_found in H. destruct H as [kw [Hin Hsub]].
  apply dangerous_keyword_found. exists kw. split; [exact Hin|].
  rewrite !upper_app. now apply Substring_app.
Qed.

(** Whitespace before and after a query of type dax does not change its
    verdict. *)
Theorem dax_verdict_ignores_surrounding_whitespace
        (before query after : string) :
  all_space before = true -> all_space after = true ->
  validate_query (before ++ query ++ after) "dax"
  = validate_query query "dax".
Proof.
  intros H1 H2. unfold validate_query. simpl String.eqb. cbv iota.
  now rewrite (strip_surrounded _ _ _ H1 H2).
Qed.

End ValidateMore.

Section ValidateMoreClosed.
Import Str Validate.

Lemma rejected_sql_stays_rejected_witness :
  validate_query ("SELECT 1; " ++ "drop table Sales" ++ " -- done") "sql"
  = Some false.
Proof.
  apply (rejected_sql_stays_rejected "drop table Sales").
  reflexivity.
Defined.

Lemma dax_verdict_ignores_surrounding_whitespace_witness :
  validate_query ("   " ++ "evaluate Sales" ++ "  ") "dax"
  = validate_query "evaluate Sales" "dax".
Proof.
  apply dax_verdict_ignores_surrounding_whitespace; reflexivity.
Defined.

End ValidateMoreClosed.

(** ** More on the similarity cache *)

Section CacheMore.
Import Cache.
Context {Result : Type} (similarity : string -> string -> Q).

(** [get_similar_query] returns the result of the first stored question, in
    insertion order, whose similarity is strictly above the threshold; a
    later entry is not looked at, however similar it may be. *)
Theorem lookup_returns_first_entry_above_threshold
        (query_cache : list (string * Result)) (question : string)
        (result : Result) :
  get_similar_query similarity query_cache question = Some result
  <-> exists before cached_q after,
        query_cache = (before ++ (cached_q, result) :: after)%list
        /\ (similarity_threshold < similarity question cached_q)%Q
        /\ forall earlier_q earlier_result,
            In (earlier_q, earlier_result) before ->
            (similarity question earlier_q <= similarity_threshold)%Q.
Proof.
  induction query_cache as [|[cq r] rest IH]; simpl.
  - split; [discriminate | intros [b [c [a [H _]]]]; now destruct b].
  - destruct (greater (similarity question cq) similarity_threshold) eqn:Hg.
    + split.
      * intros [= <-]. exists [], cq, rest.
        split; [reflexivity | split; [now apply greater_lt|]].
        intros e er [].
      * intros [b [c [a [H [Hlt Hall]]]]]. destruct b as [|[q0 r0] b].
        -- simpl in H. now injection H as _ <- _.
        -- simpl in H. injection H as <- <- _.
           apply greater_lt in Hg.
           exfalso. apply (Qlt_not_le _ _ Hg). apply (Hall cq r). now left.
    + rewrite IH. split.
      * intros [b [c [a [-> [Hlt Hall]]]]]. exists ((cq, r) :: b), c, a.
        split; [reflexivity | split; [exact Hlt|]].
        intros e er [H | H]; [|exact (Hall e er H)].
        injection H as <- <-. destruct (Qlt_le_dec similarity_threshold
                                          (similarity question cq)) as [Hl|Hl];
          [|exact Hl].
        apply greater_lt in Hl. congruence.
      * intros [b [c [a [H [Hlt Hall]]]]]. destruct b as [|[q0 r0] b].
        -- simpl in H. injection H as <- <- _.
           apply greater_lt in Hlt. congruence.
        -- simpl in H. injection H as _ _ ->. exists b, c, a.
           split; [reflexivity | split; [exact Hlt|]].
           intros e er Hin. apply (Hall e er). now right.
Qed.

End CacheMore.

Section CacheMoreClosed.
Import Cache.

Lemma lookup_returns_first_entry_above_threshold_witness :
  get_similar_query
    (fun _ cached_q => if String.eqb cached_q "sales by month"
                       then (9 # 10)%Q else 1%Q)
    [("sales by month", "SELECT 1"); ("sales per month", "SELECT 2")]
    "sales per month" = Some "SELECT 1".
Proof.
  apply (proj2 (lookup_returns_first_entry_above_threshold _ _ _ _)).
  exists [], "sales by month", [("sales per month", "SELECT 2")].
  split; [reflexivity | split; [reflexivity|]]. intros e er [].
Defined.

End CacheMoreClosed.

Section OrchestratorRunsClosed.
Import Orchestrator Fixture.

Lemma only_generated_queries_are_executed_witness :
  exists pre',
    [Generated the_question bad_query;
     Executed bad_query (failure syntax "Invalid column name 'Rev'");
     Fixed bad_query
           {| kind := syntax; message := "Invalid column name 'Rev'" |}
           good_query;
     Generated the_question bad_query]
    = (pre' ++ [Generated the_question bad_query])%list.
Proof.
  apply (only_generated_queries_are_executed
           (failing_once bad_query (fun _ => good_query)) the_question 0
           _ bad_query two_rows []).
  reflexivity.
Defined.

End OrchestratorRunsClosed.

(** ** The table's filter *)

Section FilterFacts.
Import Str Table TableView.

Lemma get_In (r : Js.row) (col : string) :
  Js.get r col <> Js.Undefined -> In (col, Js.get r col) r.
Proof.
  induction r as [|[k v] r IH]; simpl; [congruence|].
  destruct (String.eqb k col) eqn:E.
  - apply String.eqb_eq in E. subst k. now left.
  - intros H. right. now apply IH.
Qed.

Lemma matches_value (filterText : string) (r : Js.row) (v : Js.value) :
  In v (values r) ->
  Substring (lower filterText) (lower (Js.to_String v)) ->
  matches filterText r = true.
Proof.
  intros Hin Hsub. unfold matches. apply existsb_exists. exists v.
  split; [exact Hin | now apply contains_Substring].
Qed.

Lemma matches_narrower (t1 t2 : string) (r : Js.row) :
  Substring (lower t1) (lower t2) ->
  matches t2 r = true -> matches t1 r = true.
Proof.
  intros Hsub H. unfold matches in *. apply existsb_exists in H.
  destruct H as [v [Hin Hv]]. apply existsb_exists. exists v.
  split; [exact Hin|]. apply contains_Substring.
  apply contains_Substring in Hv. exact (Substring_trans _ _ _ Hsub Hv).
Qed.

Lemma matches_lower_eq (t1 t2 : string) (r : Js.row) :
  lower t1 = lower t2 -> matches t1 r = matches t2 r.
Proof. intros H. unfold matches. now rewrite H. Qed.

Lemma lower_empty (s : string) : lower s = EmptyString -> s = EmptyString.
Proof. destruct s; [reflexivity | discriminate]. Qed.

Lemma filter_all {A : Type} (l : list A) : filter (fun _ => true) l = l.
Proof. induction l as [|a l IH]; simpl; [reflexivity | now rewrite IH]. Qed.

Lemma filter_implied {A : Type} (p q : A -> bool) (l : list A) :
  (forall a, p a = true -> q a = true) ->
  filter p (filter q l) = filter p l.
Proof.
  intros H. induction l as [|a l IH]; simpl; [reflexivity|].
  destruct (q a) eqn:Hq; simpl.
  - now rewrite IH.
  - destruct (p a) eqn:Hp; [|exact IH].
    rewrite (H a Hp) in Hq. discriminate Hq.
Qed.

(** The filter of [VirtualizedDataTable.tsx] and that of its copy in the
    chat interface keep the same rows, in the same order, for every data
    set and every filter text. *)
Theorem filter_copies_agree (data : list Js.row) (filterText : string) :
  filtered data filterText = filtered_chat data filterText.
Proof.
  unfold filtered, filtered_chat. destruct filterText as [|c t].
  - symmetry. apply filter_all.
  - reflexivity.
Qed.

(** Narrowing the filter text narrows the rows: when the text [t1] occurs
    in the text [t2], case ignored, filtering by [t2] what was filtered by
    [t1] gives the rows that [t2] alone gives, so that every row shown for
    [t2] was shown for [t1]. *)
Theorem filter_narrows (data : list Js.row) (t1 t2 : string) :
  Substring (lower t1) (lower t2) ->
  filtered (filtered data t1) t2 = filtered data t2
  /\ forall r, In r (filtered data t2) -> In r (filtered data t1).
Proof.
  intros Hsub.
  assert (E : filtered (filtered data t1) t2 = filtered data t2).
  { destruct t2 as [|c2 t2].
    - destruct Hsub as [p [q H]]. simpl in H.
      destruct p; [|discriminate H]. simpl in H.
      destruct (lower t1) eqn:El; [|discriminate H].
      apply lower_empty in El. subst t1. reflexivity.
    - destruct t1 as [|c1 t1]; [reflexivity|]. simpl.
      apply filter_implied. intros r. now apply matches_narrower. }
  split; [exact E|].
  intros r Hin. rewrite <- E in Hin.
  destruct t2 as [|c2 t2]; [exact Hin|].
  simpl in Hin. apply filter_In in Hin. apply Hin.
Qed.

(** The filter ignores the case of its text: two texts that differ only in
    the case of their letters keep the same rows. *)
Theorem filter_ignores_case (data : list Js.row) (t1 t2 : string) :
  lower t1 = lower t2 -> filtered data t1 = filtered data t2.
Proof.
  intros H. destruct t1 as [|c1 t1], t2 as [|c2 t2]; try discriminate H;
    [reflexivity|].
  simpl. apply filter_ext. intros r. now apply matches_lower_eq.
Qed.

(** A cell the table shows empty can still match the filter: when a row of
    the data holds a falsy value in a column (a zero, false, null, NaN),
    the cell is displayed as the empty string, and filtering by the text
    that [String] prints for the value ("0", "false", "null", "NaN") keeps
    the row. *)
Theorem filter_matches_cells_shown_empty
        (data : list Js.row) (r : Js.row) (col : string) :
  In r data ->
  Js.get r col <> Js.Undefined ->
  Js.truthy (Js.get r col) = false ->
  cell_text r col = EmptyString
  /\ In r (filtered data (Js.to_String (Js.get r col))).
Proof.
  intros Hin Hdef Hfalsy. split; [now apply falsy_cell_text|].
  unfold filtered. destruct (Js.to_String (Js.get r col)) eqn:E;
    [exact Hin|].
  apply filter_In. split; [exact Hin|].
  apply (matches_value _ r (Js.get r col)).
  - unfold values. apply (in_map snd _ _ (get_In r col Hdef)).
  - rewrite E. apply Substring_refl.
Qed.

End FilterFacts.

Section FilterClosed.
Import Str Table TableView.

Lemma filter_narrows_witness :
  let data := [[("Region", Js.Str "West"); ("Returns", Js.Num 0)];
               [("Region", Js.Str "East"); ("Returns", Js.Num 12)];
               [("Region", Js.Str "North-West"); ("Returns", Js.Null)]] in
  filtered (filtered data "WE") "west" = filtered data "west"
  /\ forall r, In r (filtered data "west") -> In r (filtered data "WE").
Proof.
  intros data. apply filter_narrows.
  exists EmptyString, "st". reflexivity.
Defined.

Lemma filter_ignores_case_witness :
  let data := [[("Region", Js.Str "West"); ("Returns", Js.Num 0)];
               [("Region", Js.Str "East"); ("Returns", Js.Num 12)]] in
  filtered data "WEST" = filtered data "west".
Proof.
  intros data. apply filter_ignores_case. reflexivity.
Defined.

Lemma filter_matches_cells_shown_empty_witness :
  let r := [("Region", Js.Str "West"); ("Returns", Js.Null)] in
  let data := [[("Region", Js.Str "East"); ("Returns", Js.Num 12)]; r] in
  cell_text r "Returns" = EmptyString
  /\ In r (filtered data "null").
Proof.
  intros r data.
  apply (filter_matches_cells_shown_empty data r "Returns").
  - simpl. auto.
  - discriminate.
  - reflexivity.
Defined.

End FilterClosed.

(** ** Sorting by a click on a column header *)

Section SortFacts.
Import TableView.

(** The header click of the chat interface's copy sets the same sort
    configuration as [handleSort] of [VirtualizedDataTable.tsx], whatever
    the configuration before the click. *)
Theorem header_click_is_handleSort
        (col : string) (current : option SortConfig) :
  header_click col current = handleSort col current.
Proof.
  unfold header_click, handleSort.
  destruct current as [[k d]|]; simpl; [|reflexivity].
  destruct (String.eqb k col), d; reflexivity.
Qed.

(** After a click on a column the table is sorted by that column: its mark
    is an arrow, up after a first click, and every other column carries the
    double arrow.  Clicking the sorted column again reverses the direction,
    and a third click brings back the direction of the first. *)
Theorem clicks_on_a_header (col : string) (current : option SortConfig) :
  (forall other, other <> col ->
                 sort_mark (handleSort col current) other = ArrowBoth)
  /\ sort_mark (handleSort col current) col <> ArrowBoth
  /\ ((forall c, current = Some c -> key c <> col) ->
      sort_mark (handleSort col current) col = ArrowUp)
  /\ (exists c, handleSort col current = Some c
                /\ handleSort col (handleSort col current)
                   = Some {| key := col; direction := flip (direction c) |}
                /\ handleSort col (handleSort col (handleSort col current))
                   = handleSort col current).
Proof.
  assert (Hkey : exists d, handleSort col current
                           = Some {| key := col; direction := d |}).
  { unfold handleSort. destruct current as [[k d]|]; simpl;
      [destruct (String.eqb k col)|]; eexists; reflexivity. }
  destruct Hkey as [d Hd]. rewrite Hd.
  split; [|split; [|split]].
  - intros other Hne. simpl.
    destruct (String.eqb col other) eqn:E; [|reflexivity].
    apply String.eqb_eq in E. congruence.
  - simpl. rewrite String.eqb_refl. destruct d; discriminate.
  - intros Hother. simpl. rewrite String.eqb_refl.
    unfold handleSort in Hd. destruct current as [[k d0]|]; simpl in Hd.
    + destruct (String.eqb k col) eqn:E.
      * apply String.eqb_eq in E. exfalso. now apply (Hother _ eq_refl).
      * injection Hd as <-. reflexivity.
    + injection Hd as <-. reflexivity.
  - eexists. split; [reflexivity|]. simpl. rewrite String.eqb_refl. simpl.
    rewrite String.eqb_refl. split; [reflexivity|]. now destruct d.
Qed.

End SortFacts.

Section SortClosed.
Import TableView.

Lemma clicks_on_a_header_witness :
  sort_mark (handleSort "Revenue"
                        (Some {| key := "Region"; direction := desc |}))
            "Revenue" = ArrowUp.
Proof.
  apply (proj1 (proj2 (proj2 (clicks_on_a_header "Revenue"
                  (Some {| key := "Region"; direction := desc |}))))).
  intros c [= <-]. discriminate.
Defined.

End SortClosed.

(** ** More on the CSV export and the table *)

Section ExportFacts.
Import Str Table TableView.

Lemma escape_quotes_injective (s1 s2 : string) :
  escape_quotes s1 = escape_quotes s2 -> s1 = s2.
Proof.
  revert s2. induction s1 as [|c1 s1 IH]; intros [|c2 s2]; simpl.
  - reflexivity.
  - destruct (Ascii.eqb c2 _); discriminate.
  - destruct (Ascii.eqb c1 _); discriminate.
  - destruct (Ascii.eqb c1 (ascii_of_nat 34)) eqn:E1;
      destruct (Ascii.eqb c2 (ascii_of_nat 34)) eqn:E2; intros H.
    + injection H as -> H. f_equal. now apply IH.
    + injection H as -> H. destruct s2 as [|c3 s2]; simpl in H.
      * discriminate H.
      * destruct (Ascii.eqb c3 (ascii_of_nat 34)) eqn:E3;
          injection H as <- _; congruence.
    + injection H as <- H. destruct s1 as [|c3 s1]; simpl in H.
      * discriminate H.
      * destruct (Ascii.eqb c3 (ascii_of_nat 34)) eqn:E3;
          injection H as -> _; congruence.
    + injection H as -> H. f_equal. now apply IH.
Qed.

Lemma app_inv_head (p a b : string) : p ++ a = p ++ b -> a = b.
Proof.
  induction p as [|c p IH]; simpl; [trivial|].
  intros H. injection H as H. now apply IH.
Qed.

Lemma app_inv_tail_char (a b : string) (c : ascii) :
  a ++ String c EmptyString = b ++ String c EmptyString -> a = b.
Proof.
  revert b. induction a as [|x a IH]; intros [|y b]; simpl; intros H.
  - reflexivity.
  - injection H as _ H. now destruct b.
  - injection H as _ H. now destruct a.
  - injection H as -> H. f_equal. now apply IH.
Qed.

(** The quoting of the export loses nothing: two cells have the same field
    in the file only if they have the same text. *)
Theorem csv_field_determines_cell_text
        (r1 r2 : Js.row) (col1 col2 : string) :
  csv_field r1 col1 = csv_field r2 col2 ->
  cell_text r1 col1 = cell_text r2 col2.
Proof.
  unfold csv_field, quote. intros H.
  apply app_inv_head in H. apply app_inv_tail_char in H.
  now apply escape_quotes_injective.
Qed.

(** The two copies of [exportToCSV] write the same file whenever there is
    a row to export; with no row, the one of [VirtualizedDataTable.tsx]
    writes no file and the one of the chat interface writes a file with
    the header line alone. *)
Theorem export_copies_agree_on_rows
        (columns : list string) (processedData : list Js.row) :
  (processedData <> [] ->
   exportToCSV columns processedData
   = Some (exportToCSV_chat columns processedData))
  /\ exportToCSV columns [] = None
  /\ exportToCSV_chat columns [] = join "," columns.
Proof.
  split; [|split; reflexivity].
  destruct processedData; [congruence | reflexivity].
Qed.

Lemma agree_rows_alike (columns : list string) (r1 r2 : Js.row) :
  (forall col, In col columns -> Js.get r1 col = Js.get r2 col) ->
  rows_alike columns r1 r2.
Proof. intros H col Hin. left. now apply H. Qed.

(** With the columns read off the first row, as [EnhancedDataDisplay] and
    the chat interface do, only the keys of the first row are displayed and
    exported: rows that agree with the given ones on those keys, whatever
    else they hold, give the same table and the same file. *)
Theorem only_first_row_keys_are_shown
        (first : Js.row) (rest rest' : list Js.row) :
  let columns := detectedColumns None (first :: rest) in
  Forall2 (fun r r' => forall col, In col (keys first) ->
                                   Js.get r col = Js.get r' col)
          rest rest' ->
  columns = keys first
  /\ detectedColumns None (first :: rest') = columns
  /\ csvContent columns (first :: rest) = csvContent columns (first :: rest')
  /\ table_body columns (first :: rest)
     = table_body columns (first :: rest').
Proof.
  intros columns H. subst columns. simpl detectedColumns.
  split; [reflexivity | split; [reflexivity|]].
  assert (Hall : Forall2 (rows_alike (keys first))
                         (first :: rest) (first :: rest')).
  { constructor.
    - intros col _. now left.
    - induction H as [|r r' l l' Hr _ IH]; constructor;
        [now apply agree_rows_alike | exact IH]. }
  split.
  - unfold csvContent. do 2 f_equal.
    apply (Forall2_map_eq (rows_alike (keys first))); [|exact Hall].
    apply rows_alike_csv_line.
  - unfold table_body. rewrite <- !firstn_map. f_equal.
    apply (Forall2_map_eq (rows_alike (keys first))); [|exact Hall].
    apply rows_alike_cells.
Qed.

(** The chat interface's table renders as many rows as its footer says,
    [Math.min(processedData.length, 200)]: never more than 200, never more
    than the data set has, and each with one cell per column. *)
Theorem footer_counts_rendered_rows
        (columns : list string) (data : list Js.row) (filterText : string) :
  let processedData := filtered_chat data filterText in
  List.length (table_body columns processedData) = shown_count processedData
  /\ shown_count processedData <= 200
  /\ shown_count processedData <= List.length data
  /\ Forall (fun cells => List.length cells = List.length columns)
            (table_body columns processedData).
Proof.
  intros processedData. unfold table_body, shown_count.
  rewrite length_map, length_firstn, Nat.min_comm.
  split; [reflexivity | split; [apply Nat.le_min_r | split]].
  - etransitivity; [apply Nat.le_min_l|]. apply filter_length_le.
  - apply Forall_forall. intros cells Hin. apply in_map_iff in Hin.
    destruct Hin as [r [<- _]]. apply length_map.
Qed.

End ExportFacts.

Section ExportClosed.
Import Str Table TableView.

Lemma csv_field_determines_cell_text_witness :
  cell_text [("Returns", Js.Num 0)] "Returns"
  = cell_text [("Region", Js.Str "West")] "Returns".
Proof.
  apply csv_field_determines_cell_text. reflexivity.
Defined.

Lemma export_copies_agree_on_rows_witness :
  exportToCSV ["Region"] [[("Region", Js.Str "West")]]
  = Some (exportToCSV_chat ["Region"] [[("Region", Js.Str "West")]]).
Proof.
  apply (proj1 (export_copies_agree_on_rows _ _)). discriminate.
Defined.

Lemma only_first_row_keys_are_shown_witness :
  let first := [("Region", Js.Str "West")] in
  let columns := detectedColumns None [first; [("Region", Js.Str "East")]] in
  columns = keys first
  /\ detectedColumns None
       [first; [("Region", Js.Str "East"); ("Returns", Js.Num 12)]]
     = columns
  /\ csvContent columns [first; [("Region", Js.Str "East")]]
     = csvContent columns
         [first; [("Region", Js.Str "East"); ("Returns", Js.Num 12)]]
  /\ table_body columns [first; [("Region", Js.Str "East")]]
     = table_body columns
         [first; [("Region", Js.Str "East"); ("Returns", Js.Num 12)]].
Proof.
  intros first.
  apply (only_first_row_keys_are_shown first
           [[("Region", Js.Str "East")]]
           [[("Region", Js.Str "East"); ("Returns", Js.Num 12)]]).
  constructor; [|constructor].
  intros col [<- | []]. reflexivity.
Defined.

End ExportClosed.

(** ** Which questions get a chart *)

Section VisualFacts.
Import Str Visual.

Lemma visual_keyword_found (text : string) :
  existsb (fun keyword => contains keyword text) visualKeywords = true
  <-> exists keyword, In keyword visualKeywords /\ Substring keyword text.
Proof.
  rewrite existsb_exists. split; intros [kw [Hin H]]; exists kw;
    (split; [exact Hin | now apply contains_Substring]).
Qed.

(** A question is visualizable as soon as it contains a visualizable one,
    case ignored and word limits ignored: the keywords are looked for as
    substrings of the lower-cased question. *)
Theorem visualizable_inside_visualizable (inner question : string) :
  Substring (lower inner) (lower question) ->
  isVisualizableQuestion inner = true ->
  isVisualizableQuestion question = true.
Proof.
  intros Hsub H. unfold isVisualizableQuestion in *.
  apply visual_keyword_found in H. destruct H as [kw [Hin Hkw]].
  apply visual_keyword_found. exists kw. split; [exact Hin|].
  exact (Substring_trans _ _ _ Hkw Hsub).
Qed.

Lemma contains_visual_keyword (keyword question : string) :
  In keyword visualKeywords ->
  contains keyword (lower question) = true ->
  isVisualizableQuestion question = true.
Proof.
  intros Hin H. apply visual_keyword_found. exists keyword.
  split; [exact Hin | now apply contains_Substring].
Qed.

(** [recommendChartType] answers line, pie, scatter or bar, and a question
    for which it answers line or pie is one that [isVisualizableQuestion]
    accepts. *)
Theorem line_and_pie_questions_are_visualizable (question : string) :
  In (recommendChartType question) ["line"; "pie"; "scatter"; "bar"]
  /\ (recommendChartType question = "line"
      \/ recommendChartType question = "pie" ->
      isVisualizableQuestion question = true).
Proof.
  unfold recommendChartType. cbv zeta.
  destruct (contains "trend" (lower question)) eqn:H1.
  { split; [simpl; auto|]. intros _.
    apply (contains_visual_keyword "trend"); [simpl; auto 10 | exact H1]. }
  destruct (contains "over time" (lower question)) eqn:H2.
  { split; [simpl; auto|]. intros _.
    apply (contains_visual_keyword "over time"); [simpl; auto 20 | exact H2]. }
  destruct (contains "distribution" (lower question)) eqn:H3.
  { split; [simpl; auto|]. intros _.
    apply (contains_visual_keyword "distribution");
      [simpl; auto 10 | exact H3]. }
  destruct (contains "breakdown" (lower question)) eqn:H4.
  { split; [simpl; auto|]. intros _.
    apply (contains_visual_keyword "breakdown"); [simpl; auto 20 | exact H4]. }
  simpl.
  destruct (contains "correlation" (lower question)
            || contains "versus" (lower question));
    (split; [simpl; auto|]); intros [H | H]; discriminate H.
Qed.

End VisualFacts.

Section VisualClosed.
Import Str Visual.

Lemma visualizable_inside_visualizable_witness :
  isVisualizableQuestion "How many LAPTOPS were sold?" = true.
Proof.
  apply (visualizable_inside_visualizable "Top").
  - exists "how many lap", "s were sold?". reflexivity.
  - reflexivity.
Defined.

Lemma line_and_pie_questions_are_visualizable_witness :
  isVisualizableQuestion "Sales Breakdown" = true.
Proof.
  apply (proj2 (line_and_pie_questions_are_visualizable "Sales Breakdown")).
  right. reflexivity.
Defined.

End VisualClosed.

(** ** The message list of the chat *)

Section MessagesFacts.
Import Messages.

(** A call of [sendMessage] that is not ignored adds exactly two messages
    to the list, the user's question and then the assistant's completed
    message, and leaves the earlier messages as they were, provided the
    clock does not run backwards between its two readings and no earlier
    message carries the placeholder's id. *)
Theorem sendMessage_adds_two_messages
        (prev : list Message) (question : string) (now1 now2 : Z)
        (placeholder : string) (post : Post) :
  (now1 <= now2)%Z ->
  (forall m, In m prev -> id m <> (now2 + 1)%Z) ->
  sendMessage_messages prev question now1 now2 placeholder post
  = (prev ++ [userMessage now1 question;
              completed (thinkingMessage (now2 + 1) placeholder) post])%list.
Proof.
  intros Hclock Hfresh. unfold sendMessage_messages. cbv zeta.
  rewrite <- List.app_assoc. rewrite map_app. f_equal.
  - rewrite <- (map_id prev) at 2. apply map_ext_in. intros m Hin.
    destruct (id m =? now2 + 1)%Z eqn:E; [|reflexivity].
    apply Z.eqb_eq in E. exfalso. exact (Hfresh m Hin E).
  - simpl. rewrite Z.eqb_refl.
    replace (now1 =? now2 + 1)%Z with false
      by (symmetry; apply Z.eqb_neq; lia).
    reflexivity.
Qed.

End MessagesFacts.

Section MessagesClosed.
Import Messages.

Lemma sendMessage_adds_two_messages_witness :
  let welcome := {| id := 1; text := Js.Str "Welcome"; sender := assistant;
                    success := Js.Undefined; query := Js.Undefined |} in
  sendMessage_messages [welcome] "total sales" 1700000000000 1700000000000
                       "Analyzing your question..." Rejected
  = [welcome; userMessage 1700000000000 "total sales";
     completed (thinkingMessage (1700000000000 + 1)
                                "Analyzing your question...") Rejected].
Proof.
  intros welcome.
  apply (sendMessage_adds_two_messages [welcome]).
  - apply Z.le_refl.
  - intros m [<- | []]. discriminate.
Defined.

End MessagesClosed.

(** ** The monitoring dashboard's history *)

Section MonitoringFacts.
Import Monitoring.
Context {Number : Type} (toFixed1 : Number -> string).

Lemma slice_last_timestamps (n : nat) (l : list (@HistoricalMetric Number)) :
  map timestamp (slice_last n l)
  = skipn (List.length (map timestamp l) - n) (map timestamp l).
Proof. unfold slice_last. now rewrite skipn_map, length_map. Qed.

Lemma record_point_aligned (now : string) (health : Health)
      (h : @HistoricalData Number) (n : nat) :
  aligned h n -> aligned (record_point toFixed1 now health h) (S n).
Proof.
  intros [Hlen [H1 H2]]. unfold aligned, record_point.
  cbn [cacheHitRate systemHealth performance].
  rewrite !map_app, !slice_last_timestamps, H1, H2.
  split; [|split; reflexivity].
  rewrite length_app. unfold slice_last. rewrite length_skipn.
  cbn [List.length]. lia.
Qed.

Lemma polls_aligned (ps : list (@Poll Number)) :
  forall h n, aligned h n ->
    aligned (fold_left (fetchMonitoringData toFixed1) ps h)
            (n + List.length (filter is_report ps)).
Proof.
  induction ps as [|p ps IH]; intros h n H; simpl.
  - now rewrite Nat.add_0_r.
  - destruct p as [now health|]; simpl.
    + rewrite Nat.add_succ_r. apply (IH _ (S n)).
      now apply record_point_aligned.
    + now apply IH.
Qed.

(** After any sequence of polls the three series of the dashboard hold the
    same number of points, one for each poll that reported, up to 20, and
    the points at the same place in the three series were taken at the
    same time; a poll that fails changes nothing. *)
Theorem history_series_stay_aligned (ps : list (@Poll Number)) :
  let h := polls toFixed1 ps in
  let reported := List.length (filter is_report ps) in
  List.length (cacheHitRate h) = Nat.min 20 reported
  /\ List.length (systemHealth h) = Nat.min 20 reported
  /\ List.length (performance h) = Nat.min 20 reported
  /\ map timestamp (systemHealth h) = map timestamp (cacheHitRate h)
  /\ map timestamp (performance h) = map timestamp (cacheHitRate h)
  /\ polls toFixed1 (ps ++ [Failed])%list = h.
Proof.
  intros h reported.
  destruct (polls_aligned ps no_history 0) as [Hlen [H1 H2]].
  { repeat split. }
  change (0 + List.length (filter is_report ps)) with reported in Hlen.
  change (fold_left (fetchMonitoringData toFixed1) ps no_history)
    with h in Hlen, H1, H2.
  assert (L1 : List.length (systemHealth h) = List.length (cacheHitRate h))
    by (rewrite <- (length_map timestamp), H1; apply length_map).
  assert (L2 : List.length (performance h) = List.length (cacheHitRate h))
    by (rewrite <- (length_map timestamp), H2; apply length_map).
  split; [exact Hlen|].
  split; [now rewrite L1|].
  split; [now rewrite L2|].
  split; [exact H1 | split; [exact H2|]].
  unfold polls. now rewrite fold_left_app.
Qed.

End MonitoringFacts.

(** ** The backend's context manager *)

Section ContextManagerFacts.
Import ContextManager.

Lemma add_all_from (calls : list call) :
  forall history,
    fold_left (fun history '(question, query, results_data, now) =>
                 add_context history question query results_data now)
              calls history
    = (history ++ map entry_of_call calls)%list.
Proof.
  induction calls as [|[[[question query] results_data] now] calls IH];
    intros history; simpl.
  - now rewrite List.app_nil_r.
  - rewrite IH. unfold add_context. rewrite <- List.app_assoc. simpl.
    now destruct results_data.
Qed.

(** The backend's conversation history is never trimmed: after any
    sequence of [add_context] calls it holds one entry per call, in call
    order, each with the question, the query and the clock reading of its
    call, and with the number of rows of the results, which is 0 when the
    results have no data. *)
Theorem conversation_history_keeps_every_entry (calls : list call) :
  add_all calls = map entry_of_call calls
  /\ List.length (add_all calls) = List.length calls.
Proof.
  assert (E : add_all calls = map entry_of_call calls)
    by (unfold add_all; now rewrite add_all_from).
  split; [exact E | rewrite E; apply length_map].
Qed.

End ContextManagerFacts.

(** ** The chart recommendation *)

Section ChartFacts.
Import ChartAnalysis.

Lemma find_In (p : string -> bool) (l : list string) (c : string) :
  find p l = Some c -> In c l.
Proof. intros H. apply (find_some _ _ H). Qed.

(** Case analysis on the tests of the decision tree. *)
Ltac branches :=
  repeat match goal with
         | |- context [if ?c then _ else _] => destruct c
         end.

(** The y axis is made of numeric columns. *)
Ltac y_axis :=
  repeat (apply Forall_cons;
          [eexists; split; [reflexivity | cbn [In]; auto] |]);
  apply Forall_nil.

(** Whatever the data and the question, [chartAnalysis] recommends a bar,
    line, pie or scatter chart that is not among the alternatives it
    offers, with a confidence of at most 90 that is 0 exactly when there is
    no data, and at most two columns on the y axis. *)
Theorem chart_recommendation_is_well_formed
        (data : list Js.row) (question : string) :
  let a := chartAnalysis data question in
  In (recommendedType a) ["bar"; "line"; "pie"; "scatter"]
  /\ ~ In (recommendedType a) (alternatives a)
  /\ confidence a <= 90
  /\ (confidence a = 0 <-> data = [])
  /\ List.length (yAxis a) <= 2.
Proof.
  destruct data as [|first rest].
  - simpl. split; [auto|]. split; [intros []|]. split; [lia|].
    split; [split; reflexivity | lia].
  - unfold chartAnalysis. cbv zeta.
    remember (numericColumns (first :: rest) (columns_of first)) as N eqn:EN.
    remember (dateColumns (first :: rest) (columns_of first)) as D eqn:ED.
    remember (textColumns (first :: rest) (columns_of first)) as T eqn:ET.
    clear EN ED ET.
    branches.
    all: cbn [recommendedType alternatives confidence yAxis].
    all: (split; [cbn [In]; auto 6|]).
    all: (split; [cbn [In]; intuition discriminate|]).
    all: (split; [lia|]).
    all: (split; [split; intros H; discriminate H|]).
    all: try (rewrite length_map, length_firstn; lia).
    all: cbn [List.length]; lia.
Qed.

(** The recommended chart has the columns it draws: every entry of the y
    axis is a numeric column of the data; a line chart has a date column
    on the x axis, a scatter chart the first numeric column on the x axis
    and the second on the y axis, a pie chart a text column for its names
    and a numeric column for its values. *)
Theorem recommended_axes_are_columns
        (first : Js.row) (rest : list Js.row) (question : string) :
  let data := first :: rest in
  let columns := columns_of first in
  let a := chartAnalysis data question in
  Forall (fun y => exists col,
              y = Some col /\ In col (numericColumns data columns))
         (yAxis a)
  /\ (recommendedType a = "line" ->
      exists d y, xAxis a = Some d /\ In d (dateColumns data columns)
                  /\ yAxis a = [Some y])
  /\ (recommendedType a = "scatter" ->
      exists x y others,
        numericColumns data columns = x :: y :: others
        /\ xAxis a = Some x /\ yAxis a = [Some y])
  /\ (recommendedType a = "pie" ->
      exists t y, xAxis a = Some t /\ In t (textColumns data columns)
                  /\ yAxis a = [Some y]).
Proof.
  intros data columns a. subst a data columns. unfold chartAnalysis.
  cbv zeta.
  remember (numericColumns (first :: rest) (columns_of first)) as N eqn:EN.
  remember (dateColumns (first :: rest) (columns_of first)) as D eqn:ED.
  remember (textColumns (first :: rest) (columns_of first)) as T eqn:ET.
  clear EN ED ET.
  destruct N as [|x [|y N]], D as [|d D], T as [|t T];
    cbn [List.length Nat.ltb Nat.leb andb firstn map hd_error nth_error];
    rewrite ?andb_false_r; cbn [andb];
    branches;
    cbn [recommendedType xAxis yAxis].
  all: split; [y_axis|].
  all: split;
    [intros H;
     first [discriminate H
           | eexists; eexists; split;
             [reflexivity | split; [cbn [In]; auto | reflexivity]]]|].
  all: split;
    [intros H;
     first [discriminate H
           | eexists; eexists; eexists; split;
             [reflexivity | split; reflexivity]]|].
  all: intros H; try discriminate H.
  all: try (eexists; eexists; split;
            [reflexivity | split; [cbn [In]; auto | reflexivity]]).
  all: match goal with
       | |- context [find ?p ?l] =>
           destruct (find p l) as [[|c s]|] eqn:Ef
       end;
    cbn [or_else];
    eexists; eexists; (split; [reflexivity | split; [|reflexivity]]);
    first [apply (find_In _ _ _ Ef) | cbn [In]; auto].
Qed.

End ChartFacts.

Section ChartClosed.
Import ChartAnalysis.


(** A question about a trend over rows with a date and a number. *)
Example chartAnalysis_trend :
  let data := [[("Month", Js.Str "2024-01-15"); ("Revenue", Js.Num 10);
                ("Region", Js.Str "West")];
               [("Month", Js.Str "2024-02-15"); ("Revenue", Js.Num 12);
                ("Region", Js.Str "East")]] in
  let a := chartAnalysis data "Show the revenue TREND" in
  recommendedType a = "line" /\ confidence a = 90
  /\ xAxis a = Some "Month" /\ yAxis a = [Some "Revenue"]
  /\ word_test comparison_words "laptop sales" = false
  /\ word_test comparison_words "top sales" = true.
Proof. vm_compute. repeat split. Qed.

End ChartClosed.
